(** * Exchange classification and caching layer of blockchain-analyzer

    Shallow embedding of [app/exchanges/utils.ts]: the keyword classifier
    [classifyExchange], the paginated collector [fetchAllExchanges], the
    catalog cache [getAllExchangesWithCache] and the identifier-map builder
    [getExchangeTypeMap].

    Modelling choices.
    - JS strings are [String.string]; [toLowerCase] is modelled on ASCII
      letters (other characters are left unchanged); [includes] is substring
      search.
    - A JS [Map<string, V>] is an association list in insertion order:
      [set] on an existing key replaces the value in place, [set] on a new
      key appends, [get]/[has] look the key up.
    - Redis, the CoinGecko API and the locale are the outside world.  Each
      call's answer is read from an environment record [Env]: whether
      [getRedisClient] resolves, what each [redis.get] yields (a rejected
      promise, a parse error or an error thrown inside the [try] are all
      [GetThrows]), whether [redis.setEx] resolves, and the sequence of page
      answers of [client.exchanges.get].  [getAllExchangesWithCache] and
      [getExchangeTypeMap] take [redis.quit] to resolve;
      [getAllExchangesWithCacheQ] and [getExchangeTypeMapQ] read the answer
      of each [redis.quit] call from a parameter as well, and coincide with
      them when every call resolves.
    - An async function either resolves with a value or rejects: [outcome]. *)

From Stdlib Require Import String Ascii List Bool ZArith Lia Permutation Sorted.
Import ListNotations.
Open Scope string_scope.
Open Scope list_scope.

(** ** Strings *)

Definition lower_ascii (c : ascii) : ascii :=
  let n := nat_of_ascii c in
  if (65 <=? n)%nat && (n <=? 90)%nat then ascii_of_nat (n + 32) else c.

(** [String.prototype.toLowerCase] on ASCII. *)
Fixpoint toLowerCase (s : string) : string :=
  match s with
  | EmptyString => EmptyString
  | String c r => String (lower_ascii c) (toLowerCase r)
  end.

(** [s.startsWith(p)] *)
Fixpoint startsWith (s p : string) : bool :=
  match p, s with
  | EmptyString, _ => true
  | String c p', String d s' => Ascii.eqb c d && startsWith s' p'
  | String _ _, EmptyString => false
  end.

(** [s.includes(p)]: [p] occurs in [s] at some position. *)
Fixpoint includes (s p : string) : bool :=
  startsWith s p ||
  match s with
  | EmptyString => false
  | String _ s' => includes s' p
  end.

(** JS truthiness of a string: only [""] is falsy. *)
Definition truthy (s : string) : bool := negb (String.eqb s "").

(** ** The two lookup tables *)

Definition DEX_KEYWORDS : list string :=
  [ "dex"; "swap"; "uniswap"; "pancakeswap"; "sushiswap"; "curve"; "balancer";
    "1inch"; "dodo"; "kyberswap"; "raydium"; "orca"; "serum"; "jupiter";
    "cowswap"; "matcha"; "paraswap"; "airswap"; "bancor"; "idex"; "oasis";
    "augur"; "gnosis"; "radar"; "etherdelta"; "forkdelta"; "traderjoe";
    "trader joe"; "pangolin"; "spookyswap"; "spiritswap"; "quickswap";
    "solarbeam"; "beamswap"; "stellaswap"; "honeyswap"; "levinswap"; "ubeswap";
    "mobius"; "elk"; "shibaswap"; "apeswap"; "biswap"; "babyswap"; "mdex";
    "mooniswap"; "swopfi"; "defiswap"; "fluid"; "dexalot"; "venus"; "compound";
    "aave"; "synthetix";
    "0x"; "protocol";
    "v2"; "v3"; "v4"; "abstract" ].

Definition knownCEX : list string :=
  [ "binance"; "coinbase"; "kraken"; "bitfinex"; "bitstamp"; "gemini";
    "okx"; "okex"; "huobi"; "kucoin"; "bybit"; "gate"; "mexc"; "bitget";
    "crypto.com"; "cryptocom"; "ftx"; "ftx.us"; "coinbase pro"; "coinbasepro";
    "bitmex"; "deribit"; "bitflyer"; "upbit"; "bithumb";
    "poloniex"; "bittrex"; "bitmart"; "lbank"; "hotbit"; "bibox"; "probit";
    "bitrue"; "coinex"; "whitebit"; "bitforex"; "zb.com"; "zb"; "digifinex" ].

(** ** Classifier *)

(** The [knownCEX.some(...)] test, on already lower-cased id and name.  The
    same expression appears inline in [classifyExchange] and in the
    re-classification loop of [getExchangeTypeMap]. *)
Definition isKnownCEX (normalizedId normalizedName : string) : bool :=
  existsb (fun cex =>
    let normalizedCex := toLowerCase cex in
    String.eqb normalizedId normalizedCex ||
    String.eqb normalizedName normalizedCex ||
    includes normalizedId normalizedCex ||
    includes normalizedName normalizedCex) knownCEX.

(** The [DEX_KEYWORDS.some(...)] test, likewise shared by both places. *)
Definition containsDEXKeyword (normalizedId normalizedName : string) : bool :=
  existsb (fun keyword =>
    let normalizedKeyword := toLowerCase keyword in
    includes normalizedId normalizedKeyword ||
    includes normalizedName normalizedKeyword) DEX_KEYWORDS.

(** [classifyExchange(id, name, apiCentralized?)]; [None] is an absent (or
    [null]) [apiCentralized], as seen by [??]. *)
Definition classifyExchange (id name : string) (apiCentralized : option bool) : bool :=
  let normalizedId := toLowerCase id in
  let normalizedName := toLowerCase name in
  if isKnownCEX normalizedId normalizedName then true
  else if containsDEXKeyword normalizedId normalizedName then false
  else match apiCentralized with Some b => b | None => true end.

Example classify_binance_v3 : classifyExchange "binance-v3" "" None = true.
Proof. reflexivity. Qed.
Example classify_uniswap_v3 : classifyExchange "uniswap-v3" "Uniswap V3" (Some true) = false.
Proof. reflexivity. Qed.
Example classify_unknown : classifyExchange "unknown-id-123" "unknown-id-123" None = true.
Proof. reflexivity. Qed.

(** ** JS [Map<string, V>] *)

Definition JSMap (V : Type) := list (string * V).

Definition map_empty {V} : JSMap V := [].

Fixpoint map_get {V} (m : JSMap V) (k : string) : option V :=
  match m with
  | [] => None
  | (k', v) :: r => if String.eqb k k' then Some v else map_get r k
  end.

Definition map_has {V} (m : JSMap V) (k : string) : bool :=
  match map_get m k with Some _ => true | None => false end.

Fixpoint map_set {V} (m : JSMap V) (k : string) (v : V) : JSMap V :=
  match m with
  | [] => [(k, v)]
  | (k', v') :: r => if String.eqb k k' then (k, v) :: r else (k', v') :: map_set r k v
  end.

(** [Array.from(m.values())] *)
Definition map_values {V} (m : JSMap V) : list V := map snd m.

(** [new Map(entries)] *)
Definition map_of_entries {V} (entries : list (string * V)) : JSMap V :=
  fold_left (fun m kv => map_set m (fst kv) (snd kv)) entries map_empty.

(** ** Venues *)

(** Descriptive fields, carried through unmodified and never inspected
    (numbers as [Z]). *)
Record Extras := mkExtras {
  country : option string;
  trust_score : option Z;
  trade_volume_24h_btc : option Z;
  year_established : option Z;
  image : option string;
  url : option string }.

(** [interface Exchange] *)
Record Exchange := mkExchange {
  ex_id : string;
  ex_name : string;
  ex_centralized : bool;
  ex_extras : Extras }.

(** A raw record of the [/exchanges] endpoint; absent fields are [None]. *)
Record RawExchange := mkRaw {
  raw_id : option string;
  raw_name : option string;
  raw_centralized : option bool;
  raw_extras : Extras }.

(** One answer of [client.exchanges.get({page, per_page})]: a rejected
    request, or the records of the page (a non-array response is the
    one-element page [[response]]). *)
Inductive PageReply :=
| PageThrows
| PageItems (items : list RawExchange).

Definition perPage : nat := 250.

(** The body of [pageExchanges.forEach]: records with a falsy [id] are
    skipped; the name falls back to the id. *)
Definition normalizeRaw (r : RawExchange) : option Exchange :=
  match raw_id r with
  | Some id =>
      if truthy id then
        let exchangeName :=
          match raw_name r with Some n => if truthy n then n else id | None => id end in
        let isCentralized := classifyExchange id exchangeName (raw_centralized r) in
        Some (mkExchange id exchangeName isCentralized (raw_extras r))
      else None
  | None => None
  end.

(** [exchanges.push] for every kept record of a page, in order. *)
Fixpoint pushPage (exchanges : list Exchange) (items : list RawExchange) : list Exchange :=
  match items with
  | [] => exchanges
  | r :: rest =>
      match normalizeRaw r with
      | Some e => pushPage (exchanges ++ [e]) rest
      | None => pushPage exchanges rest
      end
  end.

(** The [while (true)] loop of [fetchAllExchanges].  The list [pages] holds
    the API's answers for pages 1, 2, ...; past its end the API is taken to
    answer with an empty page. *)
Fixpoint collectPages (pages : list PageReply) (exchanges : list Exchange) : list Exchange :=
  match pages with
  | [] => exchanges
  | PageThrows :: _ => exchanges
  | PageItems pageExchanges :: rest =>
      if Nat.eqb (length pageExchanges) 0 then exchanges
      else
        let exchanges' := pushPage exchanges pageExchanges in
        if Nat.ltb (length pageExchanges) perPage then exchanges'
        else collectPages rest exchanges'
  end.

(** Deduplication through [new Map<string, Exchange>()], first one wins. *)
Definition dedupStep (uniqueExchanges : JSMap Exchange) (exchange : Exchange) : JSMap Exchange :=
  if map_has uniqueExchanges (ex_id exchange) then uniqueExchanges
  else map_set uniqueExchanges (ex_id exchange) exchange.

Definition dedupById (exchanges : list Exchange) : list Exchange :=
  map_values (fold_left dedupStep exchanges map_empty).

(** [fetchAllExchanges()] *)
Definition fetchAllExchanges (pages : list PageReply) : list Exchange :=
  let exchanges := collectPages pages [] in
  dedupById exchanges.

(** ** The outside world *)

Inductive GetReply (P : Type) :=
| GetThrows          (* rejected get, JSON.parse error, or error inside the try *)
| GetEmpty           (* null or "" *)
| GetValue (p : P).  (* the parsed payload *)
Arguments GetThrows {P}.
Arguments GetEmpty {P}.
Arguments GetValue {P} p.

Record Env := mkEnv {
  map_client_ok : bool;                      (* getRedisClient() in getExchangeTypeMap *)
  map_get_reply : GetReply (list (string * bool));  (* redis.get('exchanges:type-map') *)
  map_set_ok : bool;                         (* redis.setEx('exchanges:type-map', ...) *)
  cat_client_ok : bool;                      (* getRedisClient() in getAllExchangesWithCache *)
  cat_get_reply : GetReply (list Exchange);  (* redis.get('exchanges:all') *)
  cat_set_ok : bool;                         (* redis.setEx('exchanges:all', ...) *)
  api_pages : list PageReply;                (* client.exchanges.get for pages 1, 2, ... *)
  localeCompare : string -> string -> comparison }.

Inductive outcome (A : Type) :=
| Resolved (a : A)
| Rejected.
Arguments Resolved {A} a.
Arguments Rejected {A}.

(** Observable calls, for counting what an operation invoked. *)
Inductive Event :=
| EvMapRead | EvMapWrite (ok : bool)
| EvCatalogRead | EvCatalogWrite (ok : bool)
| EvCollector.

(** ** Catalog cache *)

(** [Array.prototype.sort] with a comparator (stable insertion sort). *)
Fixpoint insertBy (cmp : Exchange -> Exchange -> comparison) (e : Exchange) (l : list Exchange) :=
  match l with
  | [] => [e]
  | x :: r => match cmp x e with Gt => e :: x :: r | _ => x :: insertBy cmp e r end
  end.

Definition sortBy (cmp : Exchange -> Exchange -> comparison) (l : list Exchange) : list Exchange :=
  fold_left (fun acc e => insertBy cmp e acc) l [].

(** [{...exchange, centralized: classifyExchange(exchange.id, exchange.name, exchange.centralized)}] *)
Definition reclassify (exchange : Exchange) : Exchange :=
  mkExchange (ex_id exchange) (ex_name exchange)
    (classifyExchange (ex_id exchange) (ex_name exchange) (Some (ex_centralized exchange)))
    (ex_extras exchange).

(** [getAllExchangesWithCache()] *)
Definition getAllExchangesWithCache (env : Env) : outcome (list Exchange) * list Event :=
  if negb (cat_client_ok env) then (Rejected, [])
  else
    match cat_get_reply env with
    | GetValue cachedData =>
        (Resolved (map reclassify (dedupById cachedData)), [EvCatalogRead])
    | _ =>
        let exchanges := fetchAllExchanges (api_pages env) in
        let deduplicatedExchanges := dedupById exchanges in
        let sorted := sortBy (fun a b => localeCompare env (ex_name a) (ex_name b))
                        deduplicatedExchanges in
        (Resolved sorted, [EvCatalogRead; EvCollector; EvCatalogWrite (cat_set_ok env)])
    end.

(** ** Identifier map builder *)

(** Body of [allExchanges.forEach] in [getExchangeTypeMap]: fills
    [exchangeNamesMap] and [exchangeMap] from the catalog. *)
Definition addCatalogEntry (acc : JSMap string * JSMap bool) (exchange : Exchange)
  : JSMap string * JSMap bool :=
  let (exchangeNamesMap, exchangeMap) := acc in
  if truthy (ex_id exchange) && truthy (ex_name exchange) then
    (map_set exchangeNamesMap (ex_id exchange) (ex_name exchange),
     map_set exchangeMap (ex_id exchange) (ex_centralized exchange))
  else acc.

(** [exchangeNamesMap.get(exchangeId) || exchangeId] *)
Definition lookupName (exchangeNamesMap : JSMap string) (exchangeId : string) : string :=
  match map_get exchangeNamesMap exchangeId with
  | Some n => if truthy n then n else exchangeId
  | None => exchangeId
  end.

(** Body of [exchangeIdentifiers.forEach]: the re-classification of one
    requested identifier. *)
Definition reclassifyIdentifier (exchangeNamesMap : JSMap string)
    (exchangeMap : JSMap bool) (exchangeId : string) : JSMap bool :=
  let exchangeName := lookupName exchangeNamesMap exchangeId in
  let normalizedId := toLowerCase exchangeId in
  let normalizedName := toLowerCase exchangeName in
  if isKnownCEX normalizedId normalizedName then map_set exchangeMap exchangeId true
  else if containsDEXKeyword normalizedId normalizedName then
    map_set exchangeMap exchangeId false
  else if negb (map_has exchangeMap exchangeId) then map_set exchangeMap exchangeId true
  else exchangeMap.

(** Step 3: the whole [exchangeIdentifiers.forEach]. *)
Definition reclassifyIdentifiers (exchangeNamesMap : JSMap string)
    (exchangeMap : JSMap bool) (exchangeIdentifiers : list string) : JSMap bool :=
  fold_left (reclassifyIdentifier exchangeNamesMap) exchangeIdentifiers exchangeMap.

(** [getExchangeTypeMap(exchangeIdentifiers)] *)
Definition getExchangeTypeMap (env : Env) (exchangeIdentifiers : list string)
  : outcome (JSMap bool) * list Event :=
  if negb (map_client_ok env) then (Rejected, [])
  else
    let (exchangeMap, allCached) :=
      match map_get_reply env with
      | GetValue parsed =>
          let m := map_of_entries parsed in
          let missingExchanges := filter (fun id => negb (map_has m id)) exchangeIdentifiers in
          (m, Nat.eqb (length missingExchanges) 0)
      | _ => (map_empty, false)
      end in
    if allCached then (Resolved exchangeMap, [EvMapRead])
    else
      match getAllExchangesWithCache env with
      | (Rejected, tr) => (Rejected, EvMapRead :: tr)
      | (Resolved allExchanges, tr) =>
          let (exchangeNamesMap, exchangeMap2) :=
            fold_left addCatalogEntry allExchanges (map_empty, exchangeMap) in
          let exchangeMap3 := reclassifyIdentifiers exchangeNamesMap exchangeMap2 exchangeIdentifiers in
          (Resolved exchangeMap3, EvMapRead :: tr ++ [EvMapWrite (map_set_ok env)])
      end.

(** ** The cache operations with [redis.quit] as part of the outside world *)

(** [getAllExchangesWithCache()] where [quitOk n] is the answer of the
    [n]-th call (from 0) of [redis.quit] on the catalog client.  On a hit
    the call is inside the [try]: its rejection is caught and the function
    goes on with the live fetch.  After the write it is in the [finally]:
    its rejection reaches the caller. *)
Definition getAllExchangesWithCacheQ (quitOk : nat -> bool) (env : Env)
  : outcome (list Exchange) * list Event :=
  if negb (cat_client_ok env) then (Rejected, [])
  else
    let fresh (n : nat) :=
      let exchanges := fetchAllExchanges (api_pages env) in
      let deduplicatedExchanges := dedupById exchanges in
      let sorted := sortBy (fun a b => localeCompare env (ex_name a) (ex_name b))
                      deduplicatedExchanges in
      (if quitOk n then Resolved sorted else Rejected,
       [EvCatalogRead; EvCollector; EvCatalogWrite (cat_set_ok env)]) in
    match cat_get_reply env with
    | GetValue cachedData =>
        if quitOk 0 then (Resolved (map reclassify (dedupById cachedData)), [EvCatalogRead])
        else fresh 1
    | _ => fresh 0
    end.

(** [getExchangeTypeMap(exchangeIdentifiers)] where [mapQuitOk n] answers
    the [n]-th [redis.quit] on the map client and [catQuitOk] those of the
    catalog client.  The fast-path call is inside the [try] (a rejection
    falls through to the rebuild with the loaded map); the call after the
    write is in the [finally]. *)
Definition getExchangeTypeMapQ (mapQuitOk catQuitOk : nat -> bool) (env : Env)
    (exchangeIdentifiers : list string) : outcome (JSMap bool) * list Event :=
  if negb (map_client_ok env) then (Rejected, [])
  else
    let (exchangeMap, allCached) :=
      match map_get_reply env with
      | GetValue parsed =>
          let m := map_of_entries parsed in
          let missingExchanges := filter (fun id => negb (map_has m id)) exchangeIdentifiers in
          (m, Nat.eqb (length missingExchanges) 0)
      | _ => (map_empty, false)
      end in
    let rebuild (n : nat) :=
      match getAllExchangesWithCacheQ catQuitOk env with
      | (Rejected, tr) => (Rejected, EvMapRead :: tr)
      | (Resolved allExchanges, tr) =>
          let (exchangeNamesMap, exchangeMap2) :=
            fold_left addCatalogEntry allExchanges (map_empty, exchangeMap) in
          let exchangeMap3 := reclassifyIdentifiers exchangeNamesMap exchangeMap2 exchangeIdentifiers in
          (if mapQuitOk n then Resolved exchangeMap3 else Rejected,
           EvMapRead :: tr ++ [EvMapWrite (map_set_ok env)])
      end in
    if allCached then
      if mapQuitOk 0 then (Resolved exchangeMap, [EvMapRead]) else rebuild 1
    else rebuild 0.

(** The same outside world where every [redis.setEx] resolves. *)
Definition writesOk (env : Env) : Env :=
  mkEnv (map_client_ok env) (map_get_reply env) true
        (cat_client_ok env) (cat_get_reply env) true
        (api_pages env) (localeCompare env).

(** A failed [redis.get] replaced by a cache miss. *)
Definition readMiss {P} (r : GetReply P) : GetReply P :=
  match r with GetThrows => GetEmpty | _ => r end.

Definition readsMiss (env : Env) : Env :=
  mkEnv (map_client_ok env) (readMiss (map_get_reply env)) (map_set_ok env)
        (cat_client_ok env) (readMiss (cat_get_reply env)) (cat_set_ok env)
        (api_pages env) (localeCompare env).

(** ** Sample environments *)

Definition noExtras : Extras := mkExtras None None None None None None.

Definition coldEnv : Env :=
  mkEnv true GetEmpty true true GetEmpty true [] (fun a b => String.compare a b).

Example cold_scenario :
  fst (getExchangeTypeMap coldEnv ["binance"; "pancakeswap"; "unknown-id-123"])
  = Resolved [("binance", true); ("pancakeswap", false); ("unknown-id-123", true)].
Proof. reflexivity. Qed.

(** ** [/api/exchanges] route (GET) *)

(** The JSON body of the route: the counts and the catalog, or the 500
    error body when [getAllExchangesWithCache] rejects. *)
Inductive ExchangesResponse :=
| ExchangesOk (total cex dex : nat) (exchanges : list Exchange)
| ExchangesError500.

Definition exchangesRoute (env : Env) : ExchangesResponse :=
  match fst (getAllExchangesWithCache env) with
  | Resolved exchanges =>
      ExchangesOk (length exchanges)
        (length (filter (fun e => ex_centralized e) exchanges))
        (length (filter (fun e => negb (ex_centralized e)) exchanges))
        exchanges
  | Rejected => ExchangesError500
  end.

(** ** Exchanges page ([app/exchanges/page.tsx]) *)

(** [Array.from(new Map(data.exchanges.map(ex => [ex.id, ex])).values())]:
    the position of the first occurrence, the value of the last. *)
Definition pageUniqueExchanges (exchanges : list Exchange) : list Exchange :=
  map_values (map_of_entries (map (fun ex => (ex_id ex, ex)) exchanges)).

Inductive FilterType := FilterAll | FilterCex | FilterDex.

(** The predicate of [uniqueExchanges.filter(...)]. *)
Definition pageMatches (searchTerm : string) (filterType : FilterType) (exchange : Exchange) : bool :=
  let matchesSearch :=
    includes (toLowerCase (ex_name exchange)) (toLowerCase searchTerm) ||
    includes (toLowerCase (ex_id exchange)) (toLowerCase searchTerm) in
  let matchesType :=
    match filterType with
    | FilterAll => true
    | FilterCex => ex_centralized exchange
    | FilterDex => negb (ex_centralized exchange)
    end in
  matchesSearch && matchesType.

Definition pageFilteredExchanges (exchanges : list Exchange) (searchTerm : string)
    (filterType : FilterType) : list Exchange :=
  filter (pageMatches searchTerm filterType) (pageUniqueExchanges exchanges).

(** ** Listing-analysis route ([app/api/tokens/[id]/listing-analysis/route.ts]) *)

(** [String.prototype.trim] on ASCII whitespace (tab, line feed, vertical
    tab, form feed, carriage return, space). *)
Definition is_ws (c : ascii) : bool :=
  let n := nat_of_ascii c in
  ((9 <=? n)%nat && (n <=? 13)%nat) || Nat.eqb n 32.

Fixpoint dropWs (l : list ascii) : list ascii :=
  match l with
  | c :: r => if is_ws c then dropWs r else l
  | [] => []
  end.

Definition trim (s : string) : string :=
  string_of_list_ascii (rev (dropWs (rev (dropWs (list_ascii_of_string s))))).

(** [ticker.market]: the fields the route reads. *)
Record Market := mkMarket {
  market_name : option string;
  market_identifier : option string }.

(** A ticker object of [coins/{id}/tickers]; [converted_volume.usd] and the
    trust score feed only floating-point statistics and the prompt, and are
    not modelled. *)
Record Ticker := mkTicker { market : option Market }.

(** [isDEX(ticker, exchangeMap?)] for a ticker object. *)
Definition isDEX (ticker : Ticker) (exchangeMap : option (JSMap bool)) : bool :=
  match market ticker with
  | None => false
  | Some mk =>
      let exchangeName :=
        trim (toLowerCase (match market_name mk with Some n => n | None => "" end)) in
      let exchangeIdentifier :=
        trim (toLowerCase (match market_identifier mk with Some i => i | None => "" end)) in
      let fallback := negb (classifyExchange exchangeIdentifier exchangeName None) in
      match exchangeMap with
      | Some m =>
          if truthy exchangeIdentifier then
            match map_get m exchangeIdentifier with
            | Some isCentralized => negb isCentralized
            | None => fallback
            end
          else fallback
      | None => fallback
      end
  end.

(** [dexTickers] and [cexTickers] of [GET]. *)
Definition dexTickers (tickers : list Ticker) (exchangeMap : option (JSMap bool)) : list Ticker :=
  filter (fun t => isDEX t exchangeMap) tickers.

Definition cexTickers (tickers : list Ticker) (exchangeMap : option (JSMap bool)) : list Ticker :=
  filter (fun t => negb (isDEX t exchangeMap)) tickers.

(** [Set.prototype.add] on an insertion-ordered set of strings. *)
Definition set_add (s : list string) (x : string) : list string :=
  if existsb (String.eqb x) s then s else s ++ [x].

(** [Array.from(new Set(tickers.map(t => t.market?.identifier)
    .filter(id => id && typeof id === 'string')))] *)
Definition uniqueIdentifiers (tickers : list Ticker) : list string :=
  let ids := flat_map (fun t =>
               match market t with
               | Some mk =>
                   match market_identifier mk with
                   | Some id => if truthy id then [id] else []
                   | None => []
                   end
               | None => []
               end) tickers in
  fold_left set_add ids [].

(** One answer of [client.coins.tickers.get(tokenId, {page})]: a rejected
    request, or the [tickers] field of the response (absent or an array). *)
Inductive TickersReply :=
| TickersThrows
| TickersPage (tickers : option (list Ticker)).

(** The [while (hasMore)] loop of [getTickersFromCoinGecko]; past the end of
    [pages] the API is taken to answer without tickers. *)
Fixpoint collectTickers (pages : list TickersReply) (allTickers : list Ticker) : list Ticker :=
  match pages with
  | [] => allTickers
  | TickersThrows :: _ => allTickers
  | TickersPage None :: _ => allTickers
  | TickersPage (Some ts) :: rest =>
      if Nat.ltb 0 (length ts) then
        let allTickers' := allTickers ++ ts in
        if Nat.ltb (length ts) 100 then allTickers' else collectTickers rest allTickers'
      else allTickers
  end.

Definition getTickersFromCoinGecko (pages : list TickersReply) : list Ticker :=
  collectTickers pages [].

(** * Properties *)

(** ** JS Map lemmas *)

Section MapFacts.
Context {V : Type}.

Lemma map_get_set_same (m : JSMap V) k v : map_get (map_set m k v) k = Some v.
Proof.
  induction m as [|[k' v'] r IH]; simpl.
  - rewrite String.eqb_refl. reflexivity.
  - destruct (String.eqb k k') eqn:E; simpl.
    + rewrite String.eqb_refl. reflexivity.
    + rewrite E. exact IH.
Qed.

Lemma map_get_set_other (m : JSMap V) k k' v :
  k <> k' -> map_get (map_set m k' v) k = map_get m k.
Proof.
  intros Hne. induction m as [|[k0 v0] r IH]; simpl.
  - apply String.eqb_neq in Hne. rewrite Hne. reflexivity.
  - destruct (String.eqb k' k0) eqn:E; simpl.
    + apply String.eqb_eq in E. subst k0.
      apply String.eqb_neq in Hne. rewrite Hne. reflexivity.
    + destruct (String.eqb k k0); [reflexivity | exact IH].
Qed.

Lemma map_has_set_same (m : JSMap V) k v : map_has (map_set m k v) k = true.
Proof. unfold map_has. rewrite map_get_set_same. reflexivity. Qed.

Lemma map_has_set (m : JSMap V) k k' v :
  map_has m k = true -> map_has (map_set m k' v) k = true.
Proof.
  unfold map_has. destruct (String.eqb_spec k k') as [->|Hne].
  - rewrite map_get_set_same. reflexivity.
  - rewrite map_get_set_other by exact Hne. auto.
Qed.

Lemma map_has_keys (m : JSMap V) k : map_has m k = existsb (String.eqb k) (map fst m).
Proof.
  unfold map_has. induction m as [|[k' v'] r IH]; simpl; [reflexivity|].
  destruct (String.eqb k k'); [reflexivity | exact IH].
Qed.

Lemma map_set_fresh (m : JSMap V) k v :
  map_has m k = false -> map_set m k v = m ++ [(k, v)].
Proof.
  unfold map_has. induction m as [|[k' v'] r IH]; simpl; [reflexivity|].
  destruct (String.eqb k k'); [discriminate|].
  intros H. f_equal. apply IH. exact H.
Qed.

End MapFacts.

Lemma existsb_eqb_In (k : string) (l : list string) :
  existsb (String.eqb k) l = true <-> In k l.
Proof.
  rewrite existsb_exists. split.
  - intros [x [Hx Heq]]. apply String.eqb_eq in Heq. subst. exact Hx.
  - intros H. exists k. split; [exact H | apply String.eqb_refl].
Qed.

(** ** Deduplication *)

(** First occurrence of each id, skipping the ids of [seen]. *)
Fixpoint keepFirst (seen : list string) (l : list Exchange) : list Exchange :=
  match l with
  | [] => []
  | e :: r =>
      if existsb (String.eqb (ex_id e)) seen then keepFirst seen r
      else e :: keepFirst (seen ++ [ex_id e]) r
  end.

Lemma fold_dedupStep (l : list Exchange) (m : JSMap Exchange) :
  fold_left dedupStep l m = m ++ map (fun e => (ex_id e, e)) (keepFirst (map fst m) l).
Proof.
  revert m. induction l as [|e r IH]; intros m; simpl.
  - rewrite app_nil_r. reflexivity.
  - unfold dedupStep at 2. rewrite map_has_keys.
    destruct (existsb (String.eqb (ex_id e)) (map fst m)) eqn:Hin.
    + apply IH.
    + rewrite map_set_fresh by (rewrite map_has_keys; exact Hin).
      rewrite IH, map_app. simpl. rewrite <- app_assoc. reflexivity.
Qed.

Lemma dedupById_keepFirst (l : list Exchange) : dedupById l = keepFirst [] l.
Proof.
  unfold dedupById, map_values. rewrite fold_dedupStep. simpl.
  rewrite map_map. simpl. apply map_id.
Qed.

Lemma keepFirst_NoDup (seen : list string) (l : list Exchange) :
  NoDup (map ex_id (keepFirst seen l)) /\
  (forall e, In e (keepFirst seen l) -> ~ In (ex_id e) seen).
Proof.
  revert seen. induction l as [|e r IH]; intros seen; simpl.
  - split; [constructor | tauto].
  - destruct (existsb (String.eqb (ex_id e)) seen) eqn:Hin.
    + apply IH.
    + destruct (IH (seen ++ [ex_id e])) as [Hnd Hfresh]. split.
      * simpl. constructor; [|exact Hnd].
        intros Hm. apply in_map_iff in Hm as [e' [Heq He']].
        apply (Hfresh e' He'). rewrite Heq. apply in_or_app. right. left. reflexivity.
      * intros e' [<-|He'].
        -- intros H. apply existsb_eqb_In in H. congruence.
        -- intros H. apply (Hfresh e' He'). apply in_or_app. left. exact H.
Qed.

Lemma keepFirst_first (seen : list string) (l : list Exchange) (e : Exchange) :
  In e (keepFirst seen l) ->
  ~ In (ex_id e) seen /\
  exists pre post, l = pre ++ e :: post /\ Forall (fun e' => ex_id e' <> ex_id e) pre.
Proof.
  revert seen. induction l as [|e0 r IH]; intros seen; simpl; [tauto|].
  destruct (existsb (String.eqb (ex_id e0)) seen) eqn:Hin.
  - intros He. destruct (IH seen He) as [Hns [pre [post [-> Hpre]]]].
    split; [exact Hns|]. exists (e0 :: pre), post. split; [reflexivity|].
    constructor; [|exact Hpre].
    intros Heq. apply existsb_eqb_In in Hin. rewrite Heq in Hin. contradiction.
  - intros [<-|He].
    + split.
      * intros H. apply existsb_eqb_In in H. congruence.
      * exists [], r. split; [reflexivity | constructor].
    + destruct (IH _ He) as [Hns [pre [post [-> Hpre]]]]. split.
      * intros H. apply Hns. apply in_or_app. left. exact H.
      * exists (e0 :: pre), post. split; [reflexivity|].
        constructor; [|exact Hpre].
        intros Heq. apply Hns. apply in_or_app. right. left. exact Heq.
Qed.

Lemma keepFirst_complete (seen : list string) (l : list Exchange) (e : Exchange) :
  In e l -> In (ex_id e) seen \/ exists e', In e' (keepFirst seen l) /\ ex_id e' = ex_id e.
Proof.
  revert seen. induction l as [|e0 r IH]; intros seen; simpl; [tauto|].
  destruct (existsb (String.eqb (ex_id e0)) seen) eqn:Hin.
  - intros [<-|He].
    + left. apply existsb_eqb_In. exact Hin.
    + apply IH. exact He.
  - intros [<-|He].
    + right. exists e0. split; [left; reflexivity | reflexivity].
    + destruct (IH (seen ++ [ex_id e0]) He) as [Hs|[e' [He' Hid]]].
      * apply in_app_or in Hs as [Hs|[Hs|[]]].
        -- left. exact Hs.
        -- right. exists e0. split; [left; reflexivity | exact Hs].
      * right. exists e'. split; [right; exact He' | exact Hid].
Qed.

(** Two lists that agree on everything but the flags. *)
Definition sameButFlag (a b : Exchange) : Prop :=
  ex_id a = ex_id b /\ ex_name a = ex_name b /\ ex_extras a = ex_extras b.

Lemma keepFirst_sameButFlag (seen : list string) (l1 l2 : list Exchange) :
  Forall2 sameButFlag l1 l2 -> Forall2 sameButFlag (keepFirst seen l1) (keepFirst seen l2).
Proof.
  intros H. revert seen. induction H as [|a b r1 r2 Hab Hr IH]; intros seen; simpl.
  - constructor.
  - destruct Hab as [Hid Hrest]. rewrite Hid.
    destruct (existsb (String.eqb (ex_id b)) seen).
    + apply IH.
    + constructor; [split; [exact Hid | exact Hrest] | apply IH].
Qed.

Lemma keepFirst_keeps (seen : list string) (pre post : list Exchange) (e : Exchange) :
  ~ In (ex_id e) seen -> Forall (fun e' => ex_id e' <> ex_id e) pre ->
  In e (keepFirst seen (pre ++ e :: post)).
Proof.
  revert seen. induction pre as [|x r IH]; intros seen Hs Hpre; simpl.
  - destruct (existsb (String.eqb (ex_id e)) seen) eqn:Hin.
    + apply existsb_eqb_In in Hin. contradiction.
    + left. reflexivity.
  - inversion Hpre as [|? ? Hx Hr]; subst.
    destruct (existsb (String.eqb (ex_id x)) seen).
    + apply IH; assumption.
    + right. apply IH; [|exact Hr].
      intros H. apply in_app_or in H as [H|[H|[]]]; [contradiction|].
      apply Hx. exact H.
Qed.

(** ** Sorting *)

Lemma insertBy_perm cmp (e : Exchange) (l : list Exchange) :
  Permutation (insertBy cmp e l) (e :: l).
Proof.
  induction l as [|x r IH]; simpl; [reflexivity|].
  destruct (cmp x e).
  - rewrite IH. apply perm_swap.
  - rewrite IH. apply perm_swap.
  - reflexivity.
Qed.

Lemma sortBy_perm cmp (l : list Exchange) : Permutation (sortBy cmp l) l.
Proof.
  unfold sortBy.
  assert (H : forall acc, Permutation (fold_left (fun acc e => insertBy cmp e acc) l acc) (l ++ acc)).
  { induction l as [|e r IH]; intros acc; simpl; [reflexivity|].
    rewrite IH, insertBy_perm. symmetry. apply Permutation_middle. }
  rewrite H. rewrite app_nil_r. reflexivity.
Qed.

(** ** Collector provenance *)

Lemma normalizeRaw_some (r : RawExchange) (e : Exchange) :
  normalizeRaw r = Some e -> raw_id r = Some (ex_id e) /\ ex_id e <> "".
Proof.
  unfold normalizeRaw. destruct (raw_id r) as [id|]; [|discriminate].
  destruct (truthy id) eqn:Ht; [|discriminate].
  intros H. injection H as <-. simpl. split; [reflexivity|].
  unfold truthy in Ht. apply negb_true_iff, String.eqb_neq in Ht. exact Ht.
Qed.

Lemma pushPage_origin (acc : list Exchange) (items : list RawExchange) (e : Exchange) :
  In e (pushPage acc items) -> In e acc \/ exists r, In r items /\ normalizeRaw r = Some e.
Proof.
  revert acc. induction items as [|r rest IH]; intros acc; simpl; [tauto|].
  destruct (normalizeRaw r) as [e0|] eqn:Hn; intros He.
  - destruct (IH _ He) as [Ha|[r' [Hr' Hn']]].
    + apply in_app_or in Ha as [Ha|[<-|[]]]; [left; exact Ha|].
      right. exists r. split; [left; reflexivity | exact Hn].
    + right. exists r'. split; [right; exact Hr' | exact Hn'].
  - destruct (IH _ He) as [Ha|[r' [Hr' Hn']]]; [left; exact Ha|].
    right. exists r'. split; [right; exact Hr' | exact Hn'].
Qed.

Lemma collectPages_origin (pages : list PageReply) (acc : list Exchange) (e : Exchange) :
  In e (collectPages pages acc) ->
  In e acc \/ exists items r, In (PageItems items) pages /\ In r items /\ normalizeRaw r = Some e.
Proof.
  revert acc. induction pages as [|p rest IH]; intros acc; simpl; [tauto|].
  destruct p as [|items]; [tauto|].
  destruct (Nat.eqb (length items) 0); [tauto|].
  assert (Hpush : In e (pushPage acc items) ->
            In e acc \/ exists items' r, (PageItems items = PageItems items' \/ In (PageItems items') rest)
                                       /\ In r items' /\ normalizeRaw r = Some e).
  { intros Hp. destruct (pushPage_origin _ _ _ Hp) as [Ha|[r [Hr Hn]]]; [left; exact Ha|].
    right. exists items, r. auto. }
  destruct (Nat.ltb (length items) perPage).
  - exact Hpush.
  - intros He. destruct (IH _ He) as [Hp|[items' [r [Hi [Hr Hn]]]]].
    + exact (Hpush Hp).
    + right. exists items', r. auto.
Qed.

(** ** Catalog cache and map builder *)

Lemma catalog_NoDup (env : Env) (cat : list Exchange) :
  fst (getAllExchangesWithCache env) = Resolved cat -> NoDup (map ex_id cat).
Proof.
  unfold getAllExchangesWithCache.
  destruct (negb (cat_client_ok env)); [discriminate|].
  destruct (cat_get_reply env) as [| |cached]; simpl; intros H; injection H as <-.
  1,2: eapply Permutation_NoDup; [symmetry; apply Permutation_map, sortBy_perm|];
       rewrite dedupById_keepFirst; apply keepFirst_NoDup.
  rewrite map_map. simpl. rewrite dedupById_keepFirst. apply keepFirst_NoDup.
Qed.

Lemma addCatalog_other (post : list Exchange) (acc : JSMap string * JSMap bool) (k : string) :
  Forall (fun e' => ex_id e' <> k) post ->
  map_get (fst (fold_left addCatalogEntry post acc)) k = map_get (fst acc) k.
Proof.
  revert acc. induction post as [|e r IH]; intros [names m] Hf; simpl; [reflexivity|].
  inversion Hf as [|? ? Hne Hr]; subst.
  rewrite IH by exact Hr. unfold addCatalogEntry.
  destruct (truthy (ex_id e) && truthy (ex_name e)); simpl; [|reflexivity].
  apply map_get_set_other. congruence.
Qed.

Lemma addCatalog_name (cat : list Exchange) (e : Exchange) (acc : JSMap string * JSMap bool) :
  NoDup (map ex_id cat) -> In e cat ->
  truthy (ex_id e) = true -> truthy (ex_name e) = true ->
  map_get (fst (fold_left addCatalogEntry cat acc)) (ex_id e) = Some (ex_name e).
Proof.
  intros Hnd Hin Hi Hn. apply in_split in Hin as [pre [post ->]].
  rewrite fold_left_app. simpl.
  rewrite addCatalog_other.
  - destruct (fold_left addCatalogEntry pre acc) as [names m]. simpl.
    rewrite Hi, Hn. simpl. apply map_get_set_same.
  - rewrite map_app in Hnd. simpl in Hnd. apply NoDup_remove_2 in Hnd.
    apply Forall_forall. intros e' He' Heq. apply Hnd. apply in_or_app. right.
    rewrite <- Heq. apply in_map. exact He'.
Qed.

Lemma reclassifyIdentifier_has (names : JSMap string) (m : JSMap bool) (x k : string) :
  map_has m k = true -> map_has (reclassifyIdentifier names m x) k = true.
Proof.
  intros H. unfold reclassifyIdentifier.
  destruct (isKnownCEX _ _); [apply map_has_set; exact H|].
  destruct (containsDEXKeyword _ _); [apply map_has_set; exact H|].
  destruct (negb (map_has m x)); [apply map_has_set; exact H | exact H].
Qed.

Lemma reclassifyIdentifier_has_self (names : JSMap string) (m : JSMap bool) (x : string) :
  map_has (reclassifyIdentifier names m x) x = true.
Proof.
  unfold reclassifyIdentifier.
  destruct (isKnownCEX _ _); [apply map_has_set_same|].
  destruct (containsDEXKeyword _ _); [apply map_has_set_same|].
  destruct (map_has m x) eqn:Hx; simpl; [exact Hx | apply map_has_set_same].
Qed.

Lemma reclassifyIdentifiers_has (names : JSMap string) (ids : list string) (m : JSMap bool) (k : string) :
  map_has m k = true \/ In k ids -> map_has (reclassifyIdentifiers names m ids) k = true.
Proof.
  unfold reclassifyIdentifiers. revert m.
  induction ids as [|x r IH]; intros m H; simpl.
  - destruct H as [H|[]]. exact H.
  - apply IH. destruct H as [H|[->|H]].
    + left. apply reclassifyIdentifier_has. exact H.
    + left. apply reclassifyIdentifier_has_self.
    + right. exact H.
Qed.

Lemma reclassifyIdentifier_other (names : JSMap string) (m : JSMap bool) (x k : string) :
  x <> k -> map_get (reclassifyIdentifier names m x) k = map_get m k.
Proof.
  intros Hne. unfold reclassifyIdentifier.
  destruct (isKnownCEX _ _); [apply map_get_set_other; congruence|].
  destruct (containsDEXKeyword _ _); [apply map_get_set_other; congruence|].
  destruct (negb (map_has m x)); [apply map_get_set_other; congruence | reflexivity].
Qed.

(** One step on [k]: the known-CEX test decides whether it may become [true]. *)
Lemma reclassifyIdentifier_self (names : JSMap string) (m : JSMap bool) (k : string) :
  map_get (reclassifyIdentifier names m k) k =
  if isKnownCEX (toLowerCase k) (toLowerCase (lookupName names k)) then Some true
  else if containsDEXKeyword (toLowerCase k) (toLowerCase (lookupName names k)) then Some false
  else if map_has m k then map_get m k else Some true.
Proof.
  unfold reclassifyIdentifier.
  destruct (isKnownCEX _ _); [apply map_get_set_same|].
  destruct (containsDEXKeyword _ _); [apply map_get_set_same|].
  destruct (map_has m k); simpl; [reflexivity | apply map_get_set_same].
Qed.

(** ** Classifier lemmas *)

Lemma knownCEX_lower (cex : string) : In cex knownCEX -> toLowerCase cex = cex.
Proof.
  intros Hin.
  assert (H : forallb (fun c => String.eqb (toLowerCase c) c) knownCEX = true) by reflexivity.
  rewrite forallb_forall in H. apply String.eqb_eq, H, Hin.
Qed.

Lemma DEX_KEYWORDS_lower (k : string) : In k DEX_KEYWORDS -> toLowerCase k = k.
Proof.
  intros Hin.
  assert (H : forallb (fun c => String.eqb (toLowerCase c) c) DEX_KEYWORDS = true) by reflexivity.
  rewrite forallb_forall in H. apply String.eqb_eq, H, Hin.
Qed.

Lemma isKnownCEX_true (nid nname cex : string) :
  In cex knownCEX ->
  nid = cex \/ nname = cex \/ includes nid cex = true \/ includes nname cex = true ->
  isKnownCEX nid nname = true.
Proof.
  intros Hin Hm. unfold isKnownCEX. apply existsb_exists. exists cex.
  split; [exact Hin|]. rewrite (knownCEX_lower cex Hin).
  destruct Hm as [->|[->|[H|H]]]; rewrite ?String.eqb_refl, ?H, ?orb_true_r; reflexivity.
Qed.

Lemma isKnownCEX_false (nid nname : string) :
  (forall cex, In cex knownCEX ->
     nid <> cex /\ nname <> cex /\ includes nid cex = false /\ includes nname cex = false) ->
  isKnownCEX nid nname = false.
Proof.
  intros H. unfold isKnownCEX. apply not_true_iff_false. intros Hex.
  apply existsb_exists in Hex as [cex [Hin Hm]].
  rewrite (knownCEX_lower cex Hin) in Hm. destruct (H cex Hin) as [H1 [H2 [H3 H4]]].
  apply String.eqb_neq in H1, H2. rewrite H1, H2, H3, H4 in Hm. discriminate.
Qed.

Lemma containsDEXKeyword_true (nid nname k : string) :
  In k DEX_KEYWORDS -> includes nid k = true \/ includes nname k = true ->
  containsDEXKeyword nid nname = true.
Proof.
  intros Hin Hm. unfold containsDEXKeyword. apply existsb_exists. exists k.
  split; [exact Hin|]. rewrite (DEX_KEYWORDS_lower k Hin).
  destruct Hm as [H|H]; rewrite H; [reflexivity | apply orb_true_r].
Qed.

Lemma containsDEXKeyword_false (nid nname : string) :
  (forall k, In k DEX_KEYWORDS -> includes nid k = false /\ includes nname k = false) ->
  containsDEXKeyword nid nname = false.
Proof.
  intros H. unfold containsDEXKeyword. apply not_true_iff_false. intros Hex.
  apply existsb_exists in Hex as [k [Hin Hm]].
  rewrite (DEX_KEYWORDS_lower k Hin) in Hm. destruct (H k Hin) as [H1 H2].
  rewrite H1, H2 in Hm. discriminate.
Qed.

(** ** C1 *)

(** C1: when the lower-cased identifier or display name equals or contains
    an entry of the known-CEX allow-list, [classifyExchange] returns [true]
    (centralized), whatever the source flag and whatever DEX keyword the
    fields also contain. *)
Theorem classify_allow_list_wins (id name : string) (apiCentralized : option bool) (cex : string) :
  In cex knownCEX ->
  toLowerCase id = cex \/ toLowerCase name = cex \/
  includes (toLowerCase id) cex = true \/ includes (toLowerCase name) cex = true ->
  classifyExchange id name apiCentralized = true.
Proof.
  intros Hin Hm. unfold classifyExchange.
  rewrite (isKnownCEX_true _ _ cex Hin Hm). reflexivity.
Qed.

Lemma classify_allow_list_wins_witness :
  (In "binance" knownCEX /\
   (toLowerCase "binance-v3" = "binance" \/ toLowerCase "" = "binance" \/
    includes (toLowerCase "binance-v3") "binance" = true \/
    includes (toLowerCase "") "binance" = true)) /\
  classifyExchange "binance-v3" "" (Some false) = true.
Proof.
  split.
  - split; [simpl; auto | right; right; left; reflexivity].
  - apply (classify_allow_list_wins "binance-v3" "" (Some false) "binance").
    + simpl; auto.
    + right; right; left; reflexivity.
Defined.

(** ** C6 *)

(** C6: with no allow-list match on the lower-cased identifier and display
    name, [classifyExchange] returns [false] when either field contains a
    DEX keyword, and otherwise the source flag if given, [true] if not. *)
Theorem classify_without_allow_list (id name : string) (apiCentralized : option bool) :
  (forall cex, In cex knownCEX ->
     toLowerCase id <> cex /\ toLowerCase name <> cex /\
     includes (toLowerCase id) cex = false /\ includes (toLowerCase name) cex = false) ->
  ((exists k, In k DEX_KEYWORDS /\
      (includes (toLowerCase id) k = true \/ includes (toLowerCase name) k = true)) ->
   classifyExchange id name apiCentralized = false) /\
  ((forall k, In k DEX_KEYWORDS ->
      includes (toLowerCase id) k = false /\ includes (toLowerCase name) k = false) ->
   classifyExchange id name apiCentralized =
     match apiCentralized with Some b => b | None => true end).
Proof.
  intros Hno. unfold classifyExchange. rewrite (isKnownCEX_false _ _ Hno). split.
  - intros [k [Hk Hm]]. rewrite (containsDEXKeyword_true _ _ k Hk Hm). reflexivity.
  - intros Hnk. rewrite (containsDEXKeyword_false _ _ Hnk). reflexivity.
Qed.

Lemma classify_without_allow_list_witness :
  classifyExchange "uniswap-v3" "Uniswap V3" (Some true) = false /\
  classifyExchange "foo" "Foo" (Some false) = false.
Proof.
  assert (HnoU : forall cex, In cex knownCEX ->
     toLowerCase "uniswap-v3" <> cex /\ toLowerCase "Uniswap V3" <> cex /\
     includes (toLowerCase "uniswap-v3") cex = false /\
     includes (toLowerCase "Uniswap V3") cex = false).
  { intros cex Hin. simpl in Hin.
    repeat (destruct Hin as [<-|Hin]; [vm_compute; repeat split; discriminate|]).
    destruct Hin. }
  assert (HnoF : forall cex, In cex knownCEX ->
     toLowerCase "foo" <> cex /\ toLowerCase "Foo" <> cex /\
     includes (toLowerCase "foo") cex = false /\ includes (toLowerCase "Foo") cex = false).
  { intros cex Hin. simpl in Hin.
    repeat (destruct Hin as [<-|Hin]; [vm_compute; repeat split; discriminate|]).
    destruct Hin. }
  split.
  - apply (proj1 (classify_without_allow_list "uniswap-v3" "Uniswap V3" (Some true) HnoU)).
    exists "uniswap". split; [simpl; tauto | left; reflexivity].
  - apply (proj2 (classify_without_allow_list "foo" "Foo" (Some false) HnoF)).
    intros k Hin. simpl in Hin.
    repeat (destruct Hin as [<-|Hin]; [vm_compute; split; reflexivity|]).
    destruct Hin.
Defined.

(** ** C9 *)

(** C9 (as stated, refuted): with both fields empty the result is not
    [true] for every source flag: the flag [false] is returned. *)
Lemma classify_empty_counterexample :
  ~ (forall apiCentralized, classifyExchange "" "" apiCentralized = true).
Proof.
  intros H. specialize (H (Some false)). vm_compute in H. discriminate.
Qed.

(** C9 (amended): [classifyExchange] is a total function; with an empty
    identifier and an empty display name neither list matches and the
    result is the source flag when given, [true] when absent. *)
Theorem classify_empty_fields (apiCentralized : option bool) :
  classifyExchange "" "" apiCentralized =
  match apiCentralized with Some b => b | None => true end.
Proof. destruct apiCentralized as [b|]; reflexivity. Qed.

(** ** C8 *)

(** C8: the result of [fetchAllExchanges] has pairwise distinct ids; each
    of its venues comes from a raw record of some page that has a non-empty
    id (records lacking an id are dropped) and is the first venue with its
    id among the collected ones; every collected id is represented. *)
Theorem fetchAllExchanges_first_wins (pages : list PageReply) :
  NoDup (map ex_id (fetchAllExchanges pages)) /\
  (forall e, In e (fetchAllExchanges pages) ->
     ex_id e <> "" /\
     (exists items r, In (PageItems items) pages /\ In r items /\
        raw_id r = Some (ex_id e) /\ normalizeRaw r = Some e) /\
     (exists pre post, collectPages pages [] = pre ++ e :: post /\
        Forall (fun e' => ex_id e' <> ex_id e) pre)) /\
  (forall e, In e (collectPages pages []) ->
     exists e', In e' (fetchAllExchanges pages) /\ ex_id e' = ex_id e).
Proof.
  unfold fetchAllExchanges. rewrite dedupById_keepFirst. split; [|split].
  - apply keepFirst_NoDup.
  - intros e He. destruct (keepFirst_first _ _ _ He) as [_ Hfirst].
    destruct Hfirst as [pre [post [Hsplit Hpre]]].
    assert (Hc : In e (collectPages pages [])) by (rewrite Hsplit; apply in_elt).
    destruct (collectPages_origin _ _ _ Hc) as [[]|[items [r [Hi [Hr Hn]]]]].
    destruct (normalizeRaw_some _ _ Hn) as [Hid Hne].
    split; [exact Hne|]. split.
    + exists items, r. auto.
    + exists pre, post. auto.
  - intros e He. destruct (keepFirst_complete [] _ _ He) as [[]|H]. exact H.
Qed.

Example fetch_duplicate_abc :
  fetchAllExchanges
    [PageItems [mkRaw (Some "abc") (Some "First") None noExtras;
                mkRaw None (Some "No id") None noExtras;
                mkRaw (Some "abc") (Some "Second") None noExtras]]
  = [mkExchange "abc" "First" true noExtras].
Proof. reflexivity. Qed.

(** ** C3 *)

Definition catalogHitEnv (cached : list Exchange) : Env :=
  mkEnv true GetEmpty true true (GetValue cached) true [] (fun a b => String.compare a b).

(** C3 (as stated, refuted): two cached payloads that differ only in the
    stored flag of a venue matching neither list come back with different
    classifications, since the stored flag is the fallback argument. *)
Lemma catalog_hit_counterexample :
  fst (getAllExchangesWithCache (catalogHitEnv [mkExchange "foo" "Foo" true noExtras]))
  = Resolved [mkExchange "foo" "Foo" true noExtras] /\
  fst (getAllExchangesWithCache (catalogHitEnv [mkExchange "foo" "Foo" false noExtras]))
  = Resolved [mkExchange "foo" "Foo" false noExtras].
Proof. split; reflexivity. Qed.

(** C3 (amended): on a cache hit the result has pairwise distinct ids, and
    its venues are exactly the first cached venue of each id, with the flag
    recomputed as [classifyExchange(id, name, cached flag)]: the cached flag
    is only the fallback.  For a second payload that differs only in the
    cached flags, the two results agree on ids, names and extras, and agree
    on the flag of every venue whose identifier or display name matches the
    allow-list or a DEX keyword. *)
Theorem catalog_hit_reclassifies (env1 env2 : Env) (p1 p2 : list Exchange) :
  cat_client_ok env1 = true -> cat_client_ok env2 = true ->
  cat_get_reply env1 = GetValue p1 -> cat_get_reply env2 = GetValue p2 ->
  Forall2 sameButFlag p1 p2 ->
  exists r1 r2,
    fst (getAllExchangesWithCache env1) = Resolved r1 /\
    fst (getAllExchangesWithCache env2) = Resolved r2 /\
    NoDup (map ex_id r1) /\
    (forall x, In x r1 <->
       exists pre e post, p1 = pre ++ e :: post /\
         Forall (fun e' => ex_id e' <> ex_id e) pre /\
         x = mkExchange (ex_id e) (ex_name e)
               (classifyExchange (ex_id e) (ex_name e) (Some (ex_centralized e)))
               (ex_extras e)) /\
    Forall2 (fun e1 e2 =>
      sameButFlag e1 e2 /\
      (isKnownCEX (toLowerCase (ex_id e1)) (toLowerCase (ex_name e1)) ||
       containsDEXKeyword (toLowerCase (ex_id e1)) (toLowerCase (ex_name e1)) = true ->
       ex_centralized e1 = ex_centralized e2)) r1 r2.
Proof.
  intros Hc1 Hc2 Hg1 Hg2 Hp. unfold getAllExchangesWithCache.
  rewrite Hc1, Hc2, Hg1, Hg2. simpl.
  eexists _, _. split; [reflexivity|]. split; [reflexivity|].
  rewrite !dedupById_keepFirst. split; [|split].
  - rewrite map_map. exact (proj1 (keepFirst_NoDup [] p1)).
  - intros x. split.
    + intros Hx. apply in_map_iff in Hx as [e [<- He]].
      destruct (keepFirst_first _ _ _ He) as [_ [pre [post [Hs Hpre]]]].
      exists pre, e, post. split; [exact Hs|]. split; [exact Hpre | reflexivity].
    + intros [pre [e [post [Hs [Hpre ->]]]]]. apply in_map_iff.
      exists e. split; [reflexivity|]. rewrite Hs.
      apply keepFirst_keeps; [intros [] | exact Hpre].
  - induction (keepFirst_sameButFlag [] _ _ Hp) as [|a b r1 r2 Hab _ IH]; simpl;
      [constructor|constructor; [|exact IH]].
    destruct Hab as [Hid [Hname Hext]]. simpl.
    split; [split; [exact Hid | split; [exact Hname | exact Hext]]|].
    unfold classifyExchange. rewrite <- Hid, <- Hname.
    destruct (isKnownCEX _ _); [reflexivity|].
    destruct (containsDEXKeyword _ _); [reflexivity | discriminate].
Qed.

Definition hitPayload (flag : bool) : list Exchange :=
  [mkExchange "uniswap" "Uniswap" flag noExtras;
   mkExchange "foo" "Foo" flag noExtras;
   mkExchange "uniswap" "Uniswap copy" true noExtras].

Lemma catalog_hit_reclassifies_witness :
  exists r1 r2,
    fst (getAllExchangesWithCache (catalogHitEnv (hitPayload true))) = Resolved r1 /\
    fst (getAllExchangesWithCache (catalogHitEnv (hitPayload false))) = Resolved r2 /\
    NoDup (map ex_id r1) /\
    (forall x, In x r1 <->
       exists pre e post, hitPayload true = pre ++ e :: post /\
         Forall (fun e' => ex_id e' <> ex_id e) pre /\
         x = mkExchange (ex_id e) (ex_name e)
               (classifyExchange (ex_id e) (ex_name e) (Some (ex_centralized e)))
               (ex_extras e)) /\
    Forall2 (fun e1 e2 =>
      sameButFlag e1 e2 /\
      (isKnownCEX (toLowerCase (ex_id e1)) (toLowerCase (ex_name e1)) ||
       containsDEXKeyword (toLowerCase (ex_id e1)) (toLowerCase (ex_name e1)) = true ->
       ex_centralized e1 = ex_centralized e2)) r1 r2.
Proof.
  apply (catalog_hit_reclassifies
           (catalogHitEnv (hitPayload true)) (catalogHitEnv (hitPayload false))
           (hitPayload true) (hitPayload false)); try reflexivity.
  repeat constructor.
Defined.

(** ** C4 *)

Definition unreachableEnv : Env :=
  mkEnv false GetEmpty true false GetEmpty true [] (fun a b => String.compare a b).

(** C4 (as stated, refuted): when [getRedisClient] rejects (no REDIS_URL, or
    [connect] rejects), the rejection reaches the caller of both
    operations. *)
Lemma cache_unreachable_counterexample :
  fst (getAllExchangesWithCache unreachableEnv) = Rejected /\
  fst (getExchangeTypeMap unreachableEnv ["binance"]) = Rejected.
Proof. split; reflexivity. Qed.

Definition failingIoEnv : Env :=
  mkEnv true GetThrows false true GetThrows false [PageThrows] (fun a b => String.compare a b).

Lemma getAllExchangesWithCacheQ_resolving (env : Env) :
  getAllExchangesWithCacheQ (fun _ => true) env = getAllExchangesWithCache env.
Proof.
  unfold getAllExchangesWithCacheQ, getAllExchangesWithCache.
  destruct (cat_client_ok env); [|reflexivity]. cbn [negb].
  destruct (cat_get_reply env); reflexivity.
Qed.

Lemma getExchangeTypeMapQ_resolving (env : Env) (exchangeIdentifiers : list string) :
  getExchangeTypeMapQ (fun _ => true) (fun _ => true) env exchangeIdentifiers
  = getExchangeTypeMap env exchangeIdentifiers.
Proof.
  unfold getExchangeTypeMapQ, getExchangeTypeMap.
  rewrite getAllExchangesWithCacheQ_resolving.
  destruct (map_client_ok env); [|reflexivity]. cbn [negb].
  destruct (match map_get_reply env with
            | GetValue parsed => _ | _ => _ end) as [m0 allCached].
  destruct allCached; [reflexivity|].
  destruct (getAllExchangesWithCache env) as [[cat|] tr]; [|reflexivity].
  destruct (fold_left addCatalogEntry cat (map_empty, m0)). reflexivity.
Qed.

Lemma getAllExchangesWithCacheQ_writesOk (quitOk : nat -> bool) (env : Env) :
  fst (getAllExchangesWithCacheQ quitOk (writesOk env))
  = fst (getAllExchangesWithCacheQ quitOk env).
Proof.
  unfold getAllExchangesWithCacheQ. cbn [writesOk cat_client_ok cat_get_reply api_pages localeCompare].
  destruct (cat_client_ok env); [|reflexivity]. cbn [negb].
  destruct (cat_get_reply env); [| |destruct (quitOk 0)]; reflexivity.
Qed.

Lemma getAllExchangesWithCacheQ_readsMiss (quitOk : nat -> bool) (env : Env) :
  getAllExchangesWithCacheQ quitOk (readsMiss env) = getAllExchangesWithCacheQ quitOk env.
Proof.
  unfold getAllExchangesWithCacheQ.
  cbn [readsMiss cat_client_ok cat_get_reply cat_set_ok api_pages localeCompare].
  destruct (cat_client_ok env); [|reflexivity]. cbn [negb].
  destruct (cat_get_reply env); reflexivity.
Qed.

Lemma getExchangeTypeMapQ_fst (mapQuitOk catQuitOk : nat -> bool) (env env' : Env)
    (exchangeIdentifiers : list string) :
  map_client_ok env' = map_client_ok env ->
  readMiss (map_get_reply env') = readMiss (map_get_reply env) ->
  fst (getAllExchangesWithCacheQ catQuitOk env') = fst (getAllExchangesWithCacheQ catQuitOk env) ->
  fst (getExchangeTypeMapQ mapQuitOk catQuitOk env' exchangeIdentifiers)
  = fst (getExchangeTypeMapQ mapQuitOk catQuitOk env exchangeIdentifiers).
Proof.
  intros H1 H2 H3. unfold getExchangeTypeMapQ. rewrite H1.
  destruct (map_client_ok env); [|reflexivity]. cbn [negb].
  assert (Hm : match map_get_reply env' with
               | GetValue parsed =>
                   (map_of_entries parsed,
                    Nat.eqb (length (filter (fun id => negb (map_has (map_of_entries parsed) id))
                                       exchangeIdentifiers)) 0)
               | _ => (map_empty, false) end
             = match map_get_reply env with
               | GetValue parsed =>
                   (map_of_entries parsed,
                    Nat.eqb (length (filter (fun id => negb (map_has (map_of_entries parsed) id))
                                       exchangeIdentifiers)) 0)
               | _ => (map_empty, false) end).
  { destruct (map_get_reply env'), (map_get_reply env); simpl in H2;
      try discriminate; try reflexivity. injection H2 as ->. reflexivity. }
  rewrite Hm. clear Hm.
  destruct (match map_get_reply env with
            | GetValue parsed => _ | _ => _ end) as [m0 allCached].
  destruct (getAllExchangesWithCacheQ catQuitOk env') as [o' tr'],
           (getAllExchangesWithCacheQ catQuitOk env) as [o tr].
  cbn [fst] in H3. subst o'.
  destruct o as [cat|].
  - destruct (fold_left addCatalogEntry cat (map_empty, m0)).
    destruct allCached; [destruct (mapQuitOk 0)|]; reflexivity.
  - destruct allCached; [destruct (mapQuitOk 0)|]; reflexivity.
Qed.

Lemma filter_nil_false {A} (f : A -> bool) (l : list A) :
  Nat.eqb (length (filter f l)) 0 = true -> forall x, In x l -> f x = false.
Proof.
  induction l as [|y r IH]; simpl; [tauto|].
  destruct (f y) eqn:Hy; simpl; [discriminate|].
  intros H x [<-|Hx]; [exact Hy | exact (IH H x Hx)].
Qed.

(** C4 (amended): once [getRedisClient] resolves, a failed [redis.get]
    gives the outcome of a cache miss and a failed [redis.setEx] the
    outcome of a successful one; a catalog read that is not a hit falls
    back to the collector and, when [redis.quit] resolves, returns the
    deduplicated, sorted fetch.  With [getRedisClient] and every
    [redis.quit] resolving, both operations resolve.  A rejection of
    [getRedisClient], or of every [redis.quit], reaches the caller; with
    the catalog client failing, [getExchangeTypeMap] resolves only on its
    fast path, with the loaded map. *)
Theorem cache_io_failures_absorbed (env : Env) (exchangeIdentifiers : list string)
    (mapQuitOk catQuitOk : nat -> bool) :
  fst (getAllExchangesWithCacheQ catQuitOk env)
    = fst (getAllExchangesWithCacheQ catQuitOk (writesOk env)) /\
  fst (getExchangeTypeMapQ mapQuitOk catQuitOk env exchangeIdentifiers)
    = fst (getExchangeTypeMapQ mapQuitOk catQuitOk (writesOk env) exchangeIdentifiers) /\
  fst (getAllExchangesWithCacheQ catQuitOk env)
    = fst (getAllExchangesWithCacheQ catQuitOk (readsMiss env)) /\
  fst (getExchangeTypeMapQ mapQuitOk catQuitOk env exchangeIdentifiers)
    = fst (getExchangeTypeMapQ mapQuitOk catQuitOk (readsMiss env) exchangeIdentifiers) /\
  (cat_client_ok env = true -> (forall p, cat_get_reply env <> GetValue p) ->
   catQuitOk 0 = true ->
   fst (getAllExchangesWithCacheQ catQuitOk env)
     = Resolved (sortBy (fun a b => localeCompare env (ex_name a) (ex_name b))
                  (dedupById (fetchAllExchanges (api_pages env)))) /\
   In EvCollector (snd (getAllExchangesWithCacheQ catQuitOk env))) /\
  (cat_client_ok env = true -> (forall n, catQuitOk n = true) ->
   exists cat, fst (getAllExchangesWithCacheQ catQuitOk env) = Resolved cat) /\
  (map_client_ok env = true -> cat_client_ok env = true ->
   (forall n, mapQuitOk n = true) -> (forall n, catQuitOk n = true) ->
   exists m, fst (getExchangeTypeMapQ mapQuitOk catQuitOk env exchangeIdentifiers) = Resolved m) /\
  (cat_client_ok env = false -> fst (getAllExchangesWithCacheQ catQuitOk env) = Rejected) /\
  (map_client_ok env = false ->
   fst (getExchangeTypeMapQ mapQuitOk catQuitOk env exchangeIdentifiers) = Rejected) /\
  ((forall n, catQuitOk n = false) -> fst (getAllExchangesWithCacheQ catQuitOk env) = Rejected) /\
  ((forall n, mapQuitOk n = false) ->
   fst (getExchangeTypeMapQ mapQuitOk catQuitOk env exchangeIdentifiers) = Rejected) /\
  (cat_client_ok env = false -> forall m,
   fst (getExchangeTypeMapQ mapQuitOk catQuitOk env exchangeIdentifiers) = Resolved m ->
   exists parsed, map_get_reply env = GetValue parsed /\ m = map_of_entries parsed /\
     forall id, In id exchangeIdentifiers -> map_has m id = true).
Proof.
  split; [symmetry; apply getAllExchangesWithCacheQ_writesOk|].
  split; [symmetry; apply getExchangeTypeMapQ_fst;
          [reflexivity | reflexivity | apply getAllExchangesWithCacheQ_writesOk]|].
  split; [rewrite getAllExchangesWithCacheQ_readsMiss; reflexivity|].
  split; [symmetry; apply getExchangeTypeMapQ_fst;
          [reflexivity
          | cbn [readsMiss map_get_reply]; destruct (map_get_reply env); reflexivity
          | rewrite getAllExchangesWithCacheQ_readsMiss; reflexivity]|].
  split.
  { intros Hc Hnv Hq. unfold getAllExchangesWithCacheQ. rewrite Hc. cbn [negb].
    destruct (cat_get_reply env) eqn:Hg; [| |exfalso; exact (Hnv _ eq_refl)];
      cbv beta zeta; rewrite Hq; split; try reflexivity; simpl; auto. }
  split.
  { intros Hc Hq. unfold getAllExchangesWithCacheQ. rewrite Hc. cbn [negb].
    destruct (cat_get_reply env); cbv beta zeta; rewrite ?Hq; cbn [fst]; eauto. }
  split.
  { intros Hm Hc Hqm Hqc. unfold getExchangeTypeMapQ. rewrite Hm. cbn [negb].
    assert (Hcat : exists cat tr, getAllExchangesWithCacheQ catQuitOk env = (Resolved cat, tr)).
    { unfold getAllExchangesWithCacheQ. rewrite Hc. cbn [negb].
      destruct (cat_get_reply env); cbv beta zeta; rewrite ?Hqc; eauto. }
    destruct Hcat as [cat [tr Hcat]]. rewrite Hcat.
    destruct (match map_get_reply env with
              | GetValue parsed => _ | _ => _ end) as [m0 allCached].
    destruct (fold_left addCatalogEntry cat (map_empty, m0)).
    destruct allCached; cbv beta zeta; rewrite ?Hqm; cbn [fst]; eauto. }
  split.
  { intros Hc. unfold getAllExchangesWithCacheQ. rewrite Hc. reflexivity. }
  split.
  { intros Hm. unfold getExchangeTypeMapQ. rewrite Hm. reflexivity. }
  split.
  { intros Hq. unfold getAllExchangesWithCacheQ.
    destruct (cat_client_ok env); [|reflexivity]. cbn [negb].
    destruct (cat_get_reply env); cbv beta zeta; rewrite ?Hq; reflexivity. }
  split.
  { intros Hq. unfold getExchangeTypeMapQ.
    destruct (map_client_ok env); [|reflexivity]. cbn [negb].
    destruct (match map_get_reply env with
              | GetValue parsed => _ | _ => _ end) as [m0 allCached].
    destruct (getAllExchangesWithCacheQ catQuitOk env) as [[cat|] tr].
    - destruct (fold_left addCatalogEntry cat (map_empty, m0)).
      destruct allCached; cbv beta zeta; rewrite ?Hq; reflexivity.
    - destruct allCached; cbv beta zeta; rewrite ?Hq; reflexivity. }
  intros Hc m. unfold getExchangeTypeMapQ.
  assert (Hcat : getAllExchangesWithCacheQ catQuitOk env = (Rejected, [])).
  { unfold getAllExchangesWithCacheQ. rewrite Hc. reflexivity. }
  rewrite Hcat. destruct (map_client_ok env); [|discriminate]. cbn [negb].
  destruct (map_get_reply env) as [| |parsed] eqn:Hg; [discriminate|discriminate|].
  destruct (Nat.eqb _ 0) eqn:Hall; [|discriminate].
  destruct (mapQuitOk 0); [|discriminate].
  intros H. injection H as <-. exists parsed. split; [reflexivity|]. split; [reflexivity|].
  intros id Hid. apply negb_false_iff. exact (filter_nil_false _ _ Hall id Hid).
Qed.

Lemma cache_io_failures_absorbed_witness :
  (exists cat, fst (getAllExchangesWithCacheQ (fun _ => true) failingIoEnv) = Resolved cat) /\
  (exists m, fst (getExchangeTypeMapQ (fun _ => true) (fun _ => true) failingIoEnv ["binance"])
             = Resolved m) /\
  (fst (getAllExchangesWithCacheQ (fun _ => true) failingIoEnv)
     = Resolved (sortBy (fun a b => localeCompare failingIoEnv (ex_name a) (ex_name b))
                  (dedupById (fetchAllExchanges (api_pages failingIoEnv)))) /\
   In EvCollector (snd (getAllExchangesWithCacheQ (fun _ => true) failingIoEnv))) /\
  fst (getAllExchangesWithCacheQ (fun _ => false) failingIoEnv) = Rejected.
Proof.
  destruct (cache_io_failures_absorbed failingIoEnv ["binance"] (fun _ => true) (fun _ => true))
    as (_ & _ & _ & _ & Hmiss & Hcat & Hmap & _).
  destruct (cache_io_failures_absorbed failingIoEnv ["binance"] (fun _ => false) (fun _ => false))
    as (_ & _ & _ & _ & _ & _ & _ & _ & _ & Hquit & _).
  split; [apply Hcat; reflexivity|].
  split; [apply Hmap; reflexivity|].
  split; [apply Hmiss; [reflexivity | intros p; cbn; discriminate | reflexivity]|].
  apply Hquit. reflexivity.
Defined.

(** ** C5 *)

(** C5: when the cached identifier map already has every requested id,
    [getExchangeTypeMap] resolves with the loaded map, and the only call it
    makes is the read of that map: neither the catalog cache nor the
    collector is invoked. *)
Theorem typeMap_fast_path (env : Env) (exchangeIdentifiers : list string)
    (parsed : list (string * bool)) :
  map_client_ok env = true ->
  map_get_reply env = GetValue parsed ->
  (forall id, In id exchangeIdentifiers -> map_has (map_of_entries parsed) id = true) ->
  getExchangeTypeMap env exchangeIdentifiers = (Resolved (map_of_entries parsed), [EvMapRead]).
Proof.
  intros Hc Hg Hall. unfold getExchangeTypeMap. rewrite Hc, Hg. cbn [negb].
  assert (Hf : filter (fun id => negb (map_has (map_of_entries parsed) id)) exchangeIdentifiers = []).
  { induction exchangeIdentifiers as [|x r IH]; simpl; [reflexivity|].
    rewrite (Hall x (or_introl eq_refl)). simpl.
    apply IH. intros id Hid. apply Hall. right. exact Hid. }
  rewrite Hf. reflexivity.
Qed.

Definition warmMapEnv : Env :=
  mkEnv true (GetValue [("binance", true); ("uniswap-v3", false)]) true
        true GetEmpty true [] (fun a b => String.compare a b).

Lemma typeMap_fast_path_witness :
  getExchangeTypeMap warmMapEnv ["uniswap-v3"; "binance"]
  = (Resolved [("binance", true); ("uniswap-v3", false)], [EvMapRead]).
Proof.
  apply (typeMap_fast_path warmMapEnv ["uniswap-v3"; "binance"]
           [("binance", true); ("uniswap-v3", false)]); [reflexivity | reflexivity|].
  intros id Hid. simpl in Hid.
  destruct Hid as [<-|[<-|[]]]; reflexivity.
Defined.

(** ** C10 *)

(** C10: whenever [getExchangeTypeMap] resolves, the resolved map has an
    entry for every requested identifier. *)
Theorem typeMap_covers_requests (env : Env) (exchangeIdentifiers : list string)
    (m : JSMap bool) (tr : list Event) :
  getExchangeTypeMap env exchangeIdentifiers = (Resolved m, tr) ->
  forall id, In id exchangeIdentifiers -> map_has m id = true.
Proof.
  unfold getExchangeTypeMap. destruct (negb (map_client_ok env)); [discriminate|].
  destruct (map_get_reply env) as [| |parsed].
  1,2: destruct (getAllExchangesWithCache env) as [[cat|] tr0]; [|discriminate];
       destruct (fold_left addCatalogEntry cat (map_empty, map_empty)) as [names m2];
       intros H; injection H as <- _; intros id Hid;
       apply reclassifyIdentifiers_has; right; exact Hid.
  destruct (Nat.eqb (length (filter (fun id => negb (map_has (map_of_entries parsed) id))
                                    exchangeIdentifiers)) 0) eqn:Hz.
  - intros H. injection H as <- _. intros id Hid.
    apply Nat.eqb_eq, length_zero_iff_nil in Hz.
    destruct (map_has (map_of_entries parsed) id) eqn:Hh; [reflexivity|].
    assert (Hin : In id (filter (fun id => negb (map_has (map_of_entries parsed) id))
                                exchangeIdentifiers))
      by (apply filter_In; rewrite Hh; auto).
    rewrite Hz in Hin. destruct Hin.
  - destruct (getAllExchangesWithCache env) as [[cat|] tr0]; [|discriminate].
    destruct (fold_left addCatalogEntry cat (map_empty, map_of_entries parsed)) as [names m2].
    intros H. injection H as <- _. intros id Hid.
    apply reclassifyIdentifiers_has. right. exact Hid.
Qed.

Lemma typeMap_covers_requests_witness :
  map_has (match fst (getExchangeTypeMap coldEnv ["kraken"; "sushiswap"; "somewhere"]) with
           | Resolved m => m | Rejected => map_empty end) "somewhere" = true.
Proof.
  apply (typeMap_covers_requests coldEnv ["kraken"; "sushiswap"; "somewhere"]
           [("kraken", true); ("sushiswap", false); ("somewhere", true)]
           [EvMapRead; EvCatalogRead; EvCollector; EvCatalogWrite true; EvMapWrite true]).
  - reflexivity.
  - simpl. tauto.
Defined.

(** ** C2 *)

Definition catalogFooSwap : list Exchange := [mkExchange "x" "Foo Swap" true noExtras].

Definition warmXEnv : Env :=
  mkEnv true (GetValue [("x", true)]) true true (GetValue catalogFooSwap) true []
        (fun a b => String.compare a b).

(** C2 (as stated, refuted): if the cached identifier map already has
    ["x" -> true], the fast path returns it and the catalog entry
    ["Foo Swap"] is never consulted. *)
Lemma typeMap_fast_path_keeps_x_counterexample :
  (exists e, In e (match fst (getAllExchangesWithCache warmXEnv) with
                     | Resolved c => c | Rejected => [] end) /\
             ex_id e = "x" /\ ex_name e = "Foo Swap") /\
  fst (getExchangeTypeMap warmXEnv ["x"]) = Resolved [("x", true)].
Proof.
  split; [|reflexivity].
  eexists. split; [left; reflexivity | split; reflexivity].
Qed.

(** C2 (amended): when the fast path is not taken for ["x"] (no cached map,
    an unreadable one, or one without ["x"]), and the catalog returned by
    [getAllExchangesWithCache] contains a venue with id ["x"] and name
    ["Foo Swap"] (whatever its flag), [getExchangeTypeMap env ["x"]]
    resolves with ["x"] mapped to [false]. *)
Theorem typeMap_keyword_overrides_catalog (env : Env) (cat : list Exchange) (e : Exchange) :
  map_client_ok env = true ->
  (forall parsed, map_get_reply env = GetValue parsed ->
     map_has (map_of_entries parsed) "x" = false) ->
  fst (getAllExchangesWithCache env) = Resolved cat ->
  In e cat -> ex_id e = "x" -> ex_name e = "Foo Swap" ->
  exists m, fst (getExchangeTypeMap env ["x"]) = Resolved m /\ map_get m "x" = Some false.
Proof.
  intros Hc Hnofast Hcat Hin Hid Hname.
  assert (Hnames : forall acc,
            lookupName (fst (fold_left addCatalogEntry cat acc)) "x" = "Foo Swap").
  { intros acc. unfold lookupName. rewrite <- Hid.
    rewrite (addCatalog_name cat e acc (catalog_NoDup env cat Hcat) Hin)
      by (rewrite ?Hid, ?Hname; reflexivity).
    rewrite Hname. reflexivity. }
  assert (Hstep : forall m0 tr, exists m,
            fst (let (exchangeNamesMap, exchangeMap2) := fold_left addCatalogEntry cat (map_empty, m0) in
                 (Resolved (reclassifyIdentifiers exchangeNamesMap exchangeMap2 ["x"]),
                  EvMapRead :: tr ++ [EvMapWrite (map_set_ok env)]))
            = Resolved m /\ map_get m "x" = Some false).
  { intros m0 tr. specialize (Hnames (map_empty, m0)).
    destruct (fold_left addCatalogEntry cat (map_empty, m0)) as [names m2]. simpl in Hnames |- *.
    eexists. split; [reflexivity|].
    rewrite reclassifyIdentifier_self, Hnames. reflexivity. }
  unfold getExchangeTypeMap. rewrite Hc. cbn [negb].
  destruct (getAllExchangesWithCache env) as [o tr] eqn:Hg. simpl in Hcat. subst o.
  destruct (map_get_reply env) as [| |parsed] eqn:Hr.
  1,2: exact (Hstep map_empty tr).
  simpl. rewrite (Hnofast parsed eq_refl). simpl.
  exact (Hstep (map_of_entries parsed) tr).
Qed.

Definition coldXEnv : Env :=
  mkEnv true GetEmpty true true (GetValue catalogFooSwap) true []
        (fun a b => String.compare a b).

Lemma typeMap_keyword_overrides_catalog_witness :
  exists m, fst (getExchangeTypeMap coldXEnv ["x"]) = Resolved m /\ map_get m "x" = Some false.
Proof.
  apply (typeMap_keyword_overrides_catalog coldXEnv
           [mkExchange "x" "Foo Swap" false noExtras] (mkExchange "x" "Foo Swap" false noExtras)).
  - reflexivity.
  - intros parsed H. discriminate H.
  - reflexivity.
  - left. reflexivity.
  - reflexivity.
  - reflexivity.
Defined.

(** ** C7 *)

Definition staleMapEnv : Env :=
  mkEnv true (GetValue [("binance", false)]) true true (GetValue []) true []
        (fun a b => String.compare a b).

(** C7 (as stated, refuted): a requested id held as [false] in the cached
    map is set to [true] in step 3 when it matches the known-CEX
    allow-list. *)
Lemma stale_false_overridden_counterexample :
  map_get (map_of_entries [("binance", false)]) "binance" = Some false /\
  fst (getExchangeTypeMap staleMapEnv ["binance"; "foo"])
  = Resolved [("binance", true); ("foo", true)].
Proof. split; reflexivity. Qed.

(** C7 (amended): in step 3, an entry already [false] stays [false] unless
    the identifier or the display name used for it matches the known-CEX
    allow-list; a requested identifier that matches the allow-list ends up
    [true]. *)
Theorem reclassify_keeps_false_unless_knownCEX (names : JSMap string) (m : JSMap bool)
    (exchangeIdentifiers : list string) (x : string) :
  (map_get m x = Some false ->
   isKnownCEX (toLowerCase x) (toLowerCase (lookupName names x)) = false ->
   map_get (reclassifyIdentifiers names m exchangeIdentifiers) x = Some false) /\
  (In x exchangeIdentifiers ->
   isKnownCEX (toLowerCase x) (toLowerCase (lookupName names x)) = true ->
   map_get (reclassifyIdentifiers names m exchangeIdentifiers) x = Some true).
Proof.
  unfold reclassifyIdentifiers. split.
  - intros Hf Hk. revert m Hf. induction exchangeIdentifiers as [|y r IH]; intros m Hf; simpl.
    + exact Hf.
    + apply IH. destruct (String.eqb_spec y x) as [->|Hne].
      * rewrite reclassifyIdentifier_self, Hk.
        destruct (containsDEXKeyword _ _); [reflexivity|].
        unfold map_has. rewrite Hf. reflexivity.
      * rewrite reclassifyIdentifier_other by exact Hne. exact Hf.
  - intros Hin Hk.
    assert (Hinv : forall l m0, (In x l \/ map_get m0 x = Some true) ->
              map_get (fold_left (reclassifyIdentifier names) l m0) x = Some true).
    { induction l as [|y r IH]; intros m0 H; simpl.
      - destruct H as [[]|H]. exact H.
      - apply IH. destruct (String.eqb_spec y x) as [->|Hne].
        + right. rewrite reclassifyIdentifier_self, Hk. reflexivity.
        + rewrite reclassifyIdentifier_other by exact Hne.
          destruct H as [[Heq|Hr]|H]; [congruence | left; exact Hr | right; exact H]. }
    apply Hinv. left. exact Hin.
Qed.

Lemma reclassify_keeps_false_unless_knownCEX_witness :
  map_get (reclassifyIdentifiers [] [("foo", false)] ["foo"; "bar"]) "foo" = Some false /\
  map_get (reclassifyIdentifiers [] [("kraken", false)] ["kraken"]) "kraken" = Some true.
Proof.
  split.
  - apply (proj1 (reclassify_keeps_false_unless_knownCEX [] [("foo", false)] ["foo"; "bar"] "foo"));
      vm_compute; reflexivity.
  - apply (proj2 (reclassify_keeps_false_unless_knownCEX [] [("kraken", false)] ["kraken"] "kraken")).
    + left. reflexivity.
    + vm_compute. reflexivity.
Defined.

(** * Further properties of the code *)

(** ** Classifier *)

Lemma lower_ascii_idem (c : ascii) : lower_ascii (lower_ascii c) = lower_ascii c.
Proof. destruct c as [[] [] [] [] [] [] [] []]; reflexivity. Qed.

Lemma toLowerCase_idem (s : string) : toLowerCase (toLowerCase s) = toLowerCase s.
Proof. induction s as [|c r IH]; simpl; [reflexivity|]. rewrite lower_ascii_idem, IH. reflexivity. Qed.

(** [classifyExchange] depends on its two strings only through their
    lower-cased forms. *)
Theorem classify_case_insensitive (id name : string) (apiCentralized : option bool) :
  classifyExchange id name apiCentralized =
  classifyExchange (toLowerCase id) (toLowerCase name) apiCentralized.
Proof. unfold classifyExchange. rewrite !toLowerCase_idem. reflexivity. Qed.

Lemma classify_self_flag_aux (id name : string) (apiCentralized : option bool) :
  classifyExchange id name (Some (classifyExchange id name apiCentralized)) =
  classifyExchange id name apiCentralized.
Proof.
  unfold classifyExchange.
  destruct (isKnownCEX _ _); [reflexivity|].
  destruct (containsDEXKeyword _ _); reflexivity.
Qed.

(** Re-classifying with a previous result of [classifyExchange] as the
    source flag gives that result back: the re-classification done on a
    catalog cache hit is stable. *)
Theorem classify_reclassify_stable (id name : string) (apiCentralized : option bool) :
  classifyExchange id name (Some (classifyExchange id name apiCentralized)) =
  classifyExchange id name apiCentralized.
Proof. apply classify_self_flag_aux. Qed.

(** ** Collector *)

Definition fullPage (p : PageReply) : Prop :=
  match p with PageItems items => (perPage <= length items)%nat | PageThrows => False end.

Lemma collectPages_app_full (pre rest : list PageReply) (acc : list Exchange) :
  Forall fullPage pre ->
  collectPages (pre ++ rest) acc = collectPages rest (collectPages pre acc).
Proof.
  revert acc. induction pre as [|p r IH]; intros acc Hf; simpl; [reflexivity|].
  inversion Hf as [|? ? Hp Hr]; subst.
  destruct p as [|items]; [contradiction|]. simpl in Hp. unfold perPage in Hp.
  destruct (Nat.eqb_spec (length items) 0) as [H0|_]; [lia|].
  destruct (Nat.ltb_spec (length items) perPage) as [Hlt|_]; [unfold perPage in Hlt; lia|].
  apply IH. exact Hr.
Qed.

(** After pages that are all full (250 records), a failed page request
    ends the collection with the venues of those earlier pages, and a short
    or empty page is the last page read: later answers are never used. *)
Theorem fetchAllExchanges_stops (pre rest : list PageReply) (items : list RawExchange) :
  Forall fullPage pre ->
  fetchAllExchanges (pre ++ PageThrows :: rest) = fetchAllExchanges pre /\
  ((length items < perPage)%nat ->
   fetchAllExchanges (pre ++ PageItems items :: rest) = fetchAllExchanges (pre ++ [PageItems items])).
Proof.
  intros Hf. unfold fetchAllExchanges.
  rewrite !collectPages_app_full by exact Hf.
  split.
  - simpl. rewrite <- (app_nil_r pre) at 2. rewrite collectPages_app_full by exact Hf.
    reflexivity.
  - intros Hlt. simpl.
    destruct (Nat.eqb (length items) 0); [reflexivity|].
    apply Nat.ltb_lt in Hlt. rewrite Hlt. reflexivity.
Qed.

Definition fullPageOf (n : nat) : PageReply :=
  PageItems (repeat (mkRaw (Some "abc") None None noExtras) n).

Lemma fetchAllExchanges_stops_witness :
  fetchAllExchanges [fullPageOf 250; PageThrows; fullPageOf 3] =
  fetchAllExchanges [fullPageOf 250] /\
  ((length [mkRaw (Some "kraken") None None noExtras] < perPage)%nat ->
   fetchAllExchanges ([fullPageOf 250] ++ PageItems [mkRaw (Some "kraken") None None noExtras]
                        :: [fullPageOf 3]) =
   fetchAllExchanges ([fullPageOf 250] ++ [PageItems [mkRaw (Some "kraken") None None noExtras]])).
Proof.
  apply (fetchAllExchanges_stops [fullPageOf 250] [fullPageOf 3]
           [mkRaw (Some "kraken") None None noExtras]).
  constructor; [unfold fullPage, fullPageOf, perPage; rewrite repeat_length; lia | constructor].
Defined.

(** ** Catalog cache *)

Lemma keepFirst_incl (seen : list string) (l : list Exchange) (e : Exchange) :
  In e (keepFirst seen l) -> In e l.
Proof.
  intros H. destruct (keepFirst_first _ _ _ H) as [_ [pre [post [-> _]]]]. apply in_elt.
Qed.

Lemma keepFirst_id (seen : list string) (l : list Exchange) :
  NoDup (map ex_id l) -> (forall e, In e l -> ~ In (ex_id e) seen) -> keepFirst seen l = l.
Proof.
  revert seen. induction l as [|e r IH]; intros seen Hnd Hfresh; simpl; [reflexivity|].
  inversion Hnd as [|? ? Hnin Hnd']; subst.
  destruct (existsb (String.eqb (ex_id e)) seen) eqn:Hin.
  - apply existsb_eqb_In in Hin. exfalso. exact (Hfresh e (or_introl eq_refl) Hin).
  - f_equal. apply IH; [exact Hnd'|].
    intros e' He' Hs. apply in_app_or in Hs as [Hs|[Hs|[]]].
    + exact (Hfresh e' (or_intror He') Hs).
    + apply Hnin. rewrite Hs. apply in_map. exact He'.
Qed.

(** A venue whose flag is a [classifyExchange] result for its own id/name. *)
Definition classified (e : Exchange) : Prop :=
  exists f, ex_centralized e = classifyExchange (ex_id e) (ex_name e) f.

Lemma reclassify_classified (e : Exchange) : classified e -> reclassify e = e.
Proof.
  intros [f Hf]. destruct e as [id name c ext]. unfold reclassify. simpl in *.
  rewrite Hf, classify_self_flag_aux. reflexivity.
Qed.

Lemma catalog_classified (env : Env) (cat : list Exchange) :
  fst (getAllExchangesWithCache env) = Resolved cat -> Forall classified cat.
Proof.
  unfold getAllExchangesWithCache.
  destruct (negb (cat_client_ok env)); [discriminate|].
  destruct (cat_get_reply env) as [| |cached]; simpl; intros H; injection H as <-;
    apply Forall_forall; intros e He.
  1,2: apply (Permutation_in _ (sortBy_perm _ _)) in He;
       rewrite dedupById_keepFirst in He; apply keepFirst_incl in He;
       unfold fetchAllExchanges in He; rewrite dedupById_keepFirst in He;
       apply keepFirst_incl in He;
       destruct (collectPages_origin _ _ _ He) as [[]|[items [r [_ [_ Hn]]]]];
       unfold normalizeRaw in Hn; destruct (raw_id r); [|discriminate];
       destruct (truthy s); [|discriminate]; injection Hn as <-; eexists; reflexivity.
  apply in_map_iff in He as [e0 [<- _]]. eexists. reflexivity.
Qed.

(** Whatever [getAllExchangesWithCache] resolves with has pairwise distinct
    ids, on a cache hit as on a live fetch. *)
Theorem catalog_ids_unique (env : Env) (cat : list Exchange) :
  fst (getAllExchangesWithCache env) = Resolved cat -> NoDup (map ex_id cat).
Proof. apply catalog_NoDup. Qed.

Lemma catalog_ids_unique_witness :
  NoDup (map ex_id (match fst (getAllExchangesWithCache
                              (catalogHitEnv [mkExchange "a" "A" true noExtras;
                                              mkExchange "a" "B" false noExtras]))
                    with Resolved c => c | Rejected => [] end)).
Proof.
  apply (catalog_ids_unique
           (catalogHitEnv [mkExchange "a" "A" true noExtras; mkExchange "a" "B" false noExtras])
           [mkExchange "a" "A" true noExtras]).
  reflexivity.
Defined.

(** Round trip through the cache: a catalog that [getAllExchangesWithCache]
    resolved with, read back as the cached payload, is returned unchanged
    (de-duplication and re-classification leave it as it is). *)
Theorem catalog_cache_roundtrip (env1 env2 : Env) (cat : list Exchange) :
  fst (getAllExchangesWithCache env1) = Resolved cat ->
  cat_client_ok env2 = true -> cat_get_reply env2 = GetValue cat ->
  fst (getAllExchangesWithCache env2) = Resolved cat.
Proof.
  intros H1 Hc Hg. unfold getAllExchangesWithCache. rewrite Hc, Hg. simpl. f_equal.
  rewrite dedupById_keepFirst, keepFirst_id.
  - pose proof (catalog_classified _ _ H1) as Hcl. clear H1 Hg.
    induction Hcl as [|e r He _ IH]; simpl; [reflexivity|].
    rewrite reclassify_classified by exact He. f_equal. exact IH.
  - exact (catalog_NoDup _ _ H1).
  - intros e _ [].
Qed.

Definition liveEnv (pages : list PageReply) : Env :=
  mkEnv true GetEmpty true true GetEmpty true pages (fun a b => String.compare a b).

Definition samplePages : list PageReply :=
  [PageItems [mkRaw (Some "uniswap_v3") (Some "Uniswap V3") (Some true) noExtras;
              mkRaw (Some "binance") (Some "Binance") None noExtras;
              mkRaw (Some "foo") None (Some false) noExtras]].

Lemma catalog_cache_roundtrip_witness :
  fst (getAllExchangesWithCache
         (catalogHitEnv (match fst (getAllExchangesWithCache (liveEnv samplePages))
                         with Resolved c => c | Rejected => [] end)))
  = fst (getAllExchangesWithCache (liveEnv samplePages)).
Proof.
  apply (catalog_cache_roundtrip (liveEnv samplePages) _
           (match fst (getAllExchangesWithCache (liveEnv samplePages))
            with Resolved c => c | Rejected => [] end)); reflexivity.
Defined.

(** Sorting on a miss. *)
Section Sorting.
Variable cmp : Exchange -> Exchange -> comparison.
Hypothesis cmp_asym : forall a b, cmp a b = Gt -> cmp b a <> Gt.
Let R := fun a b => cmp a b <> Gt.

Lemma insertBy_hd (x e : Exchange) (l : list Exchange) :
  R x e -> HdRel R x l -> HdRel R x (insertBy cmp e l).
Proof.
  intros Hxe Hxl. destruct l as [|y r]; simpl; [constructor; exact Hxe|].
  destruct (cmp y e); constructor; [inversion Hxl; assumption | inversion Hxl; assumption | exact Hxe].
Qed.

Lemma insertBy_sorted (e : Exchange) (l : list Exchange) :
  Sorted R l -> Sorted R (insertBy cmp e l).
Proof.
  induction l as [|x r IH]; simpl; intros Hs.
  - constructor; constructor.
  - inversion Hs as [|? ? Hr Hhd]; subst.
    destruct (cmp x e) eqn:Hc.
    + constructor; [exact (IH Hr)|]. apply insertBy_hd; [unfold R; congruence | exact Hhd].
    + constructor; [exact (IH Hr)|]. apply insertBy_hd; [unfold R; congruence | exact Hhd].
    + constructor; [exact Hs|]. constructor. unfold R. apply cmp_asym. exact Hc.
Qed.

Lemma sortBy_sorted (l : list Exchange) : Sorted R (sortBy cmp l).
Proof.
  unfold sortBy. assert (H : forall acc, Sorted R acc ->
    Sorted R (fold_left (fun acc e => insertBy cmp e acc) l acc)).
  { induction l as [|e r IH]; intros acc Hacc; simpl; [exact Hacc|].
    apply IH, insertBy_sorted, Hacc. }
  apply H. constructor.
Qed.
End Sorting.

(** On a cache miss (or an unreadable cache) the catalog is in ascending
    [localeCompare] order of names, for any [localeCompare] that never
    answers [Gt] both ways. *)
Theorem catalog_miss_sorted (env : Env) (cat : list Exchange) :
  (forall x y, localeCompare env x y = Gt -> localeCompare env y x <> Gt) ->
  (forall p, cat_get_reply env <> GetValue p) ->
  fst (getAllExchangesWithCache env) = Resolved cat ->
  Sorted (fun a b => localeCompare env (ex_name a) (ex_name b) <> Gt) cat.
Proof.
  intros Hasym Hmiss. unfold getAllExchangesWithCache.
  destruct (negb (cat_client_ok env)); [discriminate|].
  destruct (cat_get_reply env) as [| |p]; [| |exfalso; exact (Hmiss p eq_refl)];
    simpl; intros H; injection H as <-;
    apply (sortBy_sorted (fun a b => localeCompare env (ex_name a) (ex_name b)));
    intros a b; apply Hasym.
Qed.

Lemma catalog_miss_sorted_witness :
  Sorted (fun a b => String.compare (ex_name a) (ex_name b) <> Gt)
    (match fst (getAllExchangesWithCache (liveEnv samplePages)) with
     | Resolved c => c | Rejected => [] end).
Proof.
  apply (catalog_miss_sorted (liveEnv samplePages)).
  - simpl. intros x y H. rewrite String.compare_antisym, H. discriminate.
  - intros p H. discriminate H.
  - reflexivity.
Defined.

(** ** Identifier map builder *)

Lemma addCatalog_has (cat : list Exchange) (acc : JSMap string * JSMap bool) (k : string) :
  map_has (snd acc) k = true -> map_has (snd (fold_left addCatalogEntry cat acc)) k = true.
Proof.
  revert acc. induction cat as [|e r IH]; intros [names m] H; simpl; [exact H|].
  apply IH. unfold addCatalogEntry.
  destruct (truthy (ex_id e) && truthy (ex_name e)); simpl; [apply map_has_set|]; exact H.
Qed.

Lemma addCatalog_other_snd (post : list Exchange) (acc : JSMap string * JSMap bool) (k : string) :
  Forall (fun e' => ex_id e' <> k) post ->
  map_get (snd (fold_left addCatalogEntry post acc)) k = map_get (snd acc) k.
Proof.
  revert acc. induction post as [|e r IH]; intros [names m] Hf; simpl; [reflexivity|].
  inversion Hf as [|? ? Hne Hr]; subst.
  rewrite IH by exact Hr. unfold addCatalogEntry.
  destruct (truthy (ex_id e) && truthy (ex_name e)); simpl; [|reflexivity].
  apply map_get_set_other. congruence.
Qed.

Lemma addCatalog_value (cat : list Exchange) (e : Exchange) (acc : JSMap string * JSMap bool) :
  NoDup (map ex_id cat) -> In e cat ->
  truthy (ex_id e) = true -> truthy (ex_name e) = true ->
  map_get (snd (fold_left addCatalogEntry cat acc)) (ex_id e) = Some (ex_centralized e).
Proof.
  intros Hnd Hin Hi Hn. apply in_split in Hin as [pre [post ->]].
  rewrite fold_left_app. simpl.
  rewrite addCatalog_other_snd.
  - destruct (fold_left addCatalogEntry pre acc) as [names m]. simpl.
    rewrite Hi, Hn. simpl. apply map_get_set_same.
  - rewrite map_app in Hnd. simpl in Hnd. apply NoDup_remove_2 in Hnd.
    apply Forall_forall. intros e' He' Heq. apply Hnd. apply in_or_app. right.
    rewrite <- Heq. apply in_map. exact He'.
Qed.

Lemma reclassifyIdentifier_classify (names : JSMap string) (m : JSMap bool) (k : string) :
  map_get (reclassifyIdentifier names m k) k =
  Some (classifyExchange k (lookupName names k) (map_get m k)).
Proof.
  rewrite reclassifyIdentifier_self. unfold classifyExchange.
  destruct (isKnownCEX _ _); [reflexivity|].
  destruct (containsDEXKeyword _ _); [reflexivity|].
  unfold map_has. destruct (map_get m k); reflexivity.
Qed.

Lemma reclassifyIdentifiers_classify_aux (names : JSMap string) (m : JSMap bool)
    (exchangeIdentifiers : list string) (k : string) :
  map_get (reclassifyIdentifiers names m exchangeIdentifiers) k =
  if in_dec string_dec k exchangeIdentifiers
  then Some (classifyExchange k (lookupName names k) (map_get m k))
  else map_get m k.
Proof.
  unfold reclassifyIdentifiers. revert m.
  induction exchangeIdentifiers as [|y r IH]; intros m; [reflexivity|].
  cbn [fold_left]. rewrite IH.
  destruct (String.eqb_spec y k) as [->|Hne].
  - rewrite reclassifyIdentifier_classify.
    destruct (in_dec string_dec k r);
      destruct (in_dec string_dec k (k :: r)) as [_|Hn]; try (exfalso; apply Hn; left; reflexivity).
    + rewrite classify_self_flag_aux. reflexivity.
    + reflexivity.
  - rewrite reclassifyIdentifier_other by exact Hne.
    destruct (in_dec string_dec k r) as [Hi|Hi];
      destruct (in_dec string_dec k (y :: r)) as [Hj|Hj]; try reflexivity.
    + exfalso. apply Hj. right. exact Hi.
    + exfalso. destruct Hj as [Hj|Hj]; [exact (Hne Hj) | exact (Hi Hj)].
Qed.

(** Step 3 of [getExchangeTypeMap] gives each requested identifier the
    result of [classifyExchange] on the identifier and its catalog name
    (the identifier when the catalog has none), with the entry held before
    step 3 as the source flag; entries of identifiers not requested are
    left as they are. *)
Theorem reclassifyIdentifiers_classify (names : JSMap string) (m : JSMap bool)
    (exchangeIdentifiers : list string) (k : string) :
  map_get (reclassifyIdentifiers names m exchangeIdentifiers) k =
  if in_dec string_dec k exchangeIdentifiers
  then Some (classifyExchange k (lookupName names k) (map_get m k))
  else map_get m k.
Proof. apply reclassifyIdentifiers_classify_aux. Qed.

(** When [getExchangeTypeMap] starts from a cached map, every identifier
    of that cached map is still in the map it resolves with: the map is
    only ever extended. *)
Theorem typeMap_keeps_cached_keys (env : Env) (exchangeIdentifiers : list string)
    (parsed : list (string * bool)) (m : JSMap bool) (tr : list Event) (k : string) :
  map_get_reply env = GetValue parsed ->
  getExchangeTypeMap env exchangeIdentifiers = (Resolved m, tr) ->
  map_has (map_of_entries parsed) k = true -> map_has m k = true.
Proof.
  intros Hg. unfold getExchangeTypeMap. rewrite Hg.
  destruct (negb (map_client_ok env)); [discriminate|].
  destruct (Nat.eqb _ 0).
  - intros H. injection H as <- _. auto.
  - destruct (getAllExchangesWithCache env) as [[cat|] tr0]; [|discriminate].
    pose proof (addCatalog_has cat (map_empty, map_of_entries parsed) k) as Hadd.
    destruct (fold_left addCatalogEntry cat (map_empty, map_of_entries parsed)) as [names m2].
    intros H. injection H as <- _. intros Hk.
    apply reclassifyIdentifiers_has. left. apply Hadd. exact Hk.
Qed.

Lemma typeMap_keeps_cached_keys_witness :
  map_has (match fst (getExchangeTypeMap staleMapEnv ["binance"; "foo"]) with
           | Resolved m => m | Rejected => map_empty end) "binance" = true.
Proof.
  apply (typeMap_keeps_cached_keys staleMapEnv ["binance"; "foo"] [("binance", false)]
           [("binance", true); ("foo", true)]
           [EvMapRead; EvCatalogRead; EvMapWrite true]); reflexivity.
Defined.

(** Whenever [getExchangeTypeMap] reads the catalog, every catalog venue
    with a non-empty id and name ends up with exactly its catalog
    classification, whether or not it was requested. *)
Theorem typeMap_catalog_venues (env : Env) (exchangeIdentifiers : list string)
    (cat : list Exchange) (e : Exchange) (m : JSMap bool) (tr : list Event) :
  fst (getAllExchangesWithCache env) = Resolved cat ->
  In e cat -> ex_id e <> "" -> ex_name e <> "" ->
  getExchangeTypeMap env exchangeIdentifiers = (Resolved m, tr) ->
  In EvCatalogRead tr ->
  map_get m (ex_id e) = Some (ex_centralized e).
Proof.
  intros Hcat Hin Hi Hn.
  assert (Hti : truthy (ex_id e) = true) by (unfold truthy; apply negb_true_iff, String.eqb_neq; exact Hi).
  assert (Htn : truthy (ex_name e) = true) by (unfold truthy; apply negb_true_iff, String.eqb_neq; exact Hn).
  pose proof (catalog_NoDup _ _ Hcat) as Hnd.
  assert (Hcl : classified e) by (exact (proj1 (Forall_forall _ _) (catalog_classified _ _ Hcat) e Hin)).
  assert (Hbuild : forall m0,
     map_get (reclassifyIdentifiers (fst (fold_left addCatalogEntry cat (map_empty, m0)))
                (snd (fold_left addCatalogEntry cat (map_empty, m0))) exchangeIdentifiers) (ex_id e)
     = Some (ex_centralized e)).
  { intros m0. rewrite reclassifyIdentifiers_classify_aux.
    rewrite (addCatalog_value cat e _ Hnd Hin Hti Htn).
    destruct (in_dec _ _ _); [|reflexivity].
    unfold lookupName. rewrite (addCatalog_name cat e _ Hnd Hin Hti Htn), Htn.
    destruct Hcl as [f Hf]. rewrite Hf, classify_self_flag_aux. reflexivity. }
  unfold getExchangeTypeMap.
  destruct (negb (map_client_ok env)); [discriminate|].
  destruct (getAllExchangesWithCache env) as [o tr0]. simpl in Hcat. subst o.
  destruct (match map_get_reply env with GetValue parsed => _ | _ => _ end) as [m0 allCached].
  destruct allCached.
  - intros H. injection H as _ <-. intros [H|[]]. discriminate.
  - specialize (Hbuild m0).
    destruct (fold_left addCatalogEntry cat (map_empty, m0)) as [names m2].
    intros H _. injection H as <- _. exact Hbuild.
Qed.

Lemma typeMap_catalog_venues_witness :
  map_get (match fst (getExchangeTypeMap coldXEnv ["y"]) with
           | Resolved m => m | Rejected => map_empty end) "x" = Some false.
Proof.
  apply (typeMap_catalog_venues coldXEnv ["y"] [mkExchange "x" "Foo Swap" false noExtras]
           (mkExchange "x" "Foo Swap" false noExtras)
           [("x", false); ("y", true)] [EvMapRead; EvCatalogRead; EvMapWrite true]).
  - reflexivity.
  - left. reflexivity.
  - discriminate.
  - discriminate.
  - reflexivity.
  - right. left. reflexivity.
Defined.

(** ** [/api/exchanges] route *)

Lemma filter_split_length {A} (f : A -> bool) (l : list A) :
  length (filter f l) + length (filter (fun x => negb (f x)) l) = length l.
Proof.
  induction l as [|x r IH]; simpl; [reflexivity|].
  destruct (f x); simpl; lia.
Qed.

(** The route's counts add up: [cex + dex = total = exchanges.length], the
    listed venues have distinct ids, and the 500 body is sent exactly when
    [getAllExchangesWithCache] rejects. *)
Theorem exchangesRoute_counts (env : Env) :
  match exchangesRoute env with
  | ExchangesOk total cex dex exchanges =>
      fst (getAllExchangesWithCache env) = Resolved exchanges /\
      total = cex + dex /\ total = length exchanges /\ NoDup (map ex_id exchanges)
  | ExchangesError500 => fst (getAllExchangesWithCache env) = Rejected
  end.
Proof.
  unfold exchangesRoute.
  destruct (fst (getAllExchangesWithCache env)) as [exchanges|] eqn:H; [|reflexivity].
  split; [reflexivity|].
  split; [|split; [reflexivity | exact (catalog_NoDup _ _ H)]].
  symmetry. apply filter_split_length.
Qed.

(** ** Exchanges page *)

Lemma map_of_entries_fresh {V} (l acc : list (string * V)) :
  NoDup (map fst (acc ++ l)) ->
  fold_left (fun m kv => map_set m (fst kv) (snd kv)) l acc = acc ++ l.
Proof.
  revert acc. induction l as [|[k v] r IH]; intros acc Hnd; simpl.
  - rewrite app_nil_r. reflexivity.
  - rewrite map_set_fresh.
    + rewrite IH; [rewrite <- app_assoc; reflexivity|]. rewrite <- app_assoc. exact Hnd.
    + rewrite map_has_keys. apply not_true_iff_false. intros Hk.
      apply existsb_eqb_In in Hk. rewrite map_app in Hnd. simpl in Hnd.
      apply NoDup_remove_2 in Hnd. apply Hnd. apply in_or_app. left. exact Hk.
Qed.

(** The page's own de-duplication (a [Map] keyed by id, last value wins)
    leaves the catalog served by [getAllExchangesWithCache] unchanged. *)
Theorem page_dedup_of_catalog (env : Env) (cat : list Exchange) :
  fst (getAllExchangesWithCache env) = Resolved cat -> pageUniqueExchanges cat = cat.
Proof.
  intros H. unfold pageUniqueExchanges, map_of_entries, map_values, map_empty.
  rewrite map_of_entries_fresh.
  - simpl. rewrite map_map. simpl. apply map_id.
  - simpl. rewrite map_map. simpl. exact (catalog_NoDup _ _ H).
Qed.

Lemma page_dedup_of_catalog_witness :
  pageUniqueExchanges (match fst (getAllExchangesWithCache (liveEnv samplePages)) with
                       | Resolved c => c | Rejected => [] end)
  = (match fst (getAllExchangesWithCache (liveEnv samplePages)) with
     | Resolved c => c | Rejected => [] end).
Proof. apply (page_dedup_of_catalog (liveEnv samplePages)). reflexivity. Defined.

(** For every search term, the "CEX" and "DEX" filters of the page split
    the "all" list: their sizes add up to its size. *)
Theorem page_filters_partition (exchanges : list Exchange) (searchTerm : string) :
  length (pageFilteredExchanges exchanges searchTerm FilterCex) +
  length (pageFilteredExchanges exchanges searchTerm FilterDex) =
  length (pageFilteredExchanges exchanges searchTerm FilterAll).
Proof.
  unfold pageFilteredExchanges. induction (pageUniqueExchanges exchanges) as [|e r IH];
    [reflexivity|].
  cbn [filter].
  assert (Hc : pageMatches searchTerm FilterCex e = pageMatches searchTerm FilterAll e && ex_centralized e)
    by (unfold pageMatches; destruct (_ || _); reflexivity).
  assert (Hd : pageMatches searchTerm FilterDex e =
               pageMatches searchTerm FilterAll e && negb (ex_centralized e))
    by (unfold pageMatches; destruct (_ || _); reflexivity).
  rewrite Hc, Hd.
  destruct (pageMatches searchTerm FilterAll e); destruct (ex_centralized e); simpl; lia.
Qed.

(** ** Listing-analysis route *)

Lemma fold_set_add (ids acc : list string) :
  NoDup acc ->
  NoDup (fold_left set_add ids acc) /\
  (forall x, In x (fold_left set_add ids acc) <-> In x acc \/ In x ids).
Proof.
  revert acc. induction ids as [|y r IH]; intros acc Hnd; simpl.
  - split; [exact Hnd | tauto].
  - assert (Hs : set_add acc y = if existsb (String.eqb y) acc then acc else acc ++ [y])
      by reflexivity.
    rewrite Hs. destruct (existsb (String.eqb y) acc) eqn:Hy.
    + apply existsb_eqb_In in Hy. destruct (IH acc Hnd) as [H1 H2]. split; [exact H1|].
      intros x. rewrite H2. split; [tauto|]. intros [H|[<-|H]]; auto.
    + assert (Hnd' : NoDup (acc ++ [y])).
      { apply NoDup_app; [exact Hnd | constructor; [intros []|constructor] |].
        intros x Hx [<-|[]]. apply not_true_iff_false in Hy. apply Hy, existsb_eqb_In, Hx. }
      destruct (IH _ Hnd') as [H1 H2]. split; [exact H1|].
      intros x. rewrite H2, in_app_iff. simpl. tauto.
Qed.

Lemma uniqueIdentifiers_aux (tickers : list Ticker) :
  NoDup (uniqueIdentifiers tickers) /\
  (forall id, In id (uniqueIdentifiers tickers) <->
     id <> "" /\ exists t mk, In t tickers /\ market t = Some mk /\ market_identifier mk = Some id).
Proof.
  unfold uniqueIdentifiers. destruct (fold_set_add
    (flat_map (fun t => match market t with
                        | Some mk => match market_identifier mk with
                                     | Some id => if truthy id then [id] else []
                                     | None => [] end
                        | None => [] end) tickers) [] (NoDup_nil _)) as [H1 H2].
  split; [exact H1|]. intros id. rewrite H2. simpl. rewrite in_flat_map. split.
  - intros [[]|[t [Ht Hid]]].
    destruct (market t) as [mk|] eqn:Hm; [|destruct Hid].
    destruct (market_identifier mk) as [i|] eqn:Hi; [|destruct Hid].
    destruct (truthy i) eqn:Htr; [|destruct Hid].
    destruct Hid as [<-|[]]. split.
    + unfold truthy in Htr. apply negb_true_iff, String.eqb_neq in Htr. exact Htr.
    + exists t, mk. auto.
  - intros [Hne [t [mk [Ht [Hm Hi]]]]]. right. exists t. split; [exact Ht|].
    rewrite Hm, Hi. unfold truthy. apply String.eqb_neq in Hne. rewrite Hne. left. reflexivity.
Qed.

(** The identifiers the route requests are pairwise distinct, and they are
    exactly the non-empty [market.identifier] strings of the tickers. *)
Theorem uniqueIdentifiers_spec (tickers : list Ticker) :
  NoDup (uniqueIdentifiers tickers) /\
  (forall id, In id (uniqueIdentifiers tickers) <->
     id <> "" /\ exists t mk, In t tickers /\ market t = Some mk /\ market_identifier mk = Some id).
Proof. apply uniqueIdentifiers_aux. Qed.

Lemma typeMap_has_requested (env : Env) (exchangeIdentifiers : list string)
    (m : JSMap bool) (tr : list Event) :
  getExchangeTypeMap env exchangeIdentifiers = (Resolved m, tr) ->
  forall id, In id exchangeIdentifiers -> map_has m id = true.
Proof.
  unfold getExchangeTypeMap. destruct (negb (map_client_ok env)); [discriminate|].
  destruct (map_get_reply env) as [| |parsed].
  1,2: destruct (getAllExchangesWithCache env) as [[cat|] tr0]; [|discriminate];
       destruct (fold_left addCatalogEntry cat (map_empty, map_empty)) as [names m2];
       intros H; injection H as <- _; intros id Hid;
       apply reclassifyIdentifiers_has; right; exact Hid.
  destruct (Nat.eqb (length (filter (fun id => negb (map_has (map_of_entries parsed) id))
                                    exchangeIdentifiers)) 0) eqn:Hz.
  - intros H. injection H as <- _. intros id Hid.
    apply Nat.eqb_eq, length_zero_iff_nil in Hz.
    destruct (map_has (map_of_entries parsed) id) eqn:Hh; [reflexivity|].
    assert (Hin : In id (filter (fun id => negb (map_has (map_of_entries parsed) id))
                                exchangeIdentifiers))
      by (apply filter_In; rewrite Hh; auto).
    rewrite Hz in Hin. destruct Hin.
  - destruct (getAllExchangesWithCache env) as [[cat|] tr0]; [|discriminate].
    destruct (fold_left addCatalogEntry cat (map_empty, map_of_entries parsed)) as [names m2].
    intros H. injection H as <- _. intros id Hid.
    apply reclassifyIdentifiers_has. right. exact Hid.
Qed.

(** Composition of the route with [getExchangeTypeMap]: once the map for
    the tickers' identifiers is built, [isDEX] decides every ticker whose
    identifier is non-empty, lower-case and trimmed from the map entry
    under that identifier (a DEX iff the entry is [false]). *)
Theorem listing_isDEX_uses_map (env : Env) (tickers : list Ticker) (m : JSMap bool)
    (tr : list Event) (t : Ticker) (mk : Market) (id : string) :
  getExchangeTypeMap env (uniqueIdentifiers tickers) = (Resolved m, tr) ->
  In t tickers -> market t = Some mk -> market_identifier mk = Some id -> id <> "" ->
  trim (toLowerCase id) = id ->
  exists v, map_get m id = Some v /\ isDEX t (Some m) = negb v.
Proof.
  intros Hb Ht Hm Hi Hne Hnorm.
  assert (Hin : In id (uniqueIdentifiers tickers)).
  { apply (proj2 (uniqueIdentifiers_aux tickers)). split; [exact Hne|]. exists t, mk. auto. }
  pose proof (typeMap_has_requested _ _ _ _ Hb id Hin) as Hhas.
  unfold map_has in Hhas. destruct (map_get m id) as [v|] eqn:Hv; [|discriminate].
  exists v. split; [reflexivity|].
  unfold isDEX. rewrite Hm, Hi, Hnorm.
  assert (Htr : truthy id = true) by (unfold truthy; apply negb_true_iff, String.eqb_neq; exact Hne).
  rewrite Htr, Hv. reflexivity.
Qed.

Definition sampleTickers : list Ticker :=
  [mkTicker (Some (mkMarket (Some "Uniswap V3") (Some "uniswap_v3")));
   mkTicker (Some (mkMarket (Some "Binance") (Some "binance")));
   mkTicker None].

Lemma listing_isDEX_uses_map_witness :
  exists v, map_get [("uniswap_v3", false); ("binance", true)] "uniswap_v3" = Some v /\
    isDEX (mkTicker (Some (mkMarket (Some "Uniswap V3") (Some "uniswap_v3"))))
          (Some [("uniswap_v3", false); ("binance", true)]) = negb v.
Proof.
  apply (listing_isDEX_uses_map coldEnv sampleTickers [("uniswap_v3", false); ("binance", true)]
           [EvMapRead; EvCatalogRead; EvCollector; EvCatalogWrite true; EvMapWrite true]
           (mkTicker (Some (mkMarket (Some "Uniswap V3") (Some "uniswap_v3"))))
           (mkMarket (Some "Uniswap V3") (Some "uniswap_v3")) "uniswap_v3").
  - reflexivity.
  - left. reflexivity.
  - reflexivity.
  - reflexivity.
  - discriminate.
  - reflexivity.
Defined.

(** The route's DEX and CEX ticker lists split the tickers: [dexCount +
    cexCount = totalListings], and a ticker without [market] is counted as
    CEX. *)
Theorem ticker_split_counts (tickers : list Ticker) (exchangeMap : option (JSMap bool)) :
  length (dexTickers tickers exchangeMap) + length (cexTickers tickers exchangeMap) = length tickers /\
  (forall t, In t tickers -> market t = None -> In t (cexTickers tickers exchangeMap)).
Proof.
  split; [apply filter_split_length|].
  intros t Ht Hm. unfold cexTickers. apply filter_In. split; [exact Ht|].
  unfold isDEX. rewrite Hm. reflexivity.
Qed.

(** Ticker pagination. *)
Definition fullTickersPage (p : TickersReply) : Prop :=
  match p with TickersPage (Some ts) => (100 <= length ts)%nat | _ => False end.

Definition pageTickers (p : TickersReply) : list Ticker :=
  match p with TickersPage (Some ts) => ts | _ => [] end.

Lemma collectTickers_app_full (pre rest : list TickersReply) (acc : list Ticker) :
  Forall fullTickersPage pre ->
  collectTickers (pre ++ rest) acc = collectTickers rest (acc ++ concat (map pageTickers pre)).
Proof.
  revert acc. induction pre as [|p r IH]; intros acc Hf; simpl.
  - rewrite app_nil_r. reflexivity.
  - inversion Hf as [|? ? Hp Hr]; subst.
    destruct p as [|[ts|]]; try contradiction. simpl in Hp.
    destruct (Nat.ltb_spec 0 (length ts)) as [_|H0]; [|lia].
    destruct (Nat.ltb_spec (length ts) 100) as [Hlt|_]; [lia|].
    rewrite IH by exact Hr. rewrite app_assoc. reflexivity.
Qed.

(** After full pages (100 tickers or more), a failed request keeps exactly
    the tickers of those pages, and a short page is the last one read; its
    tickers are appended and later answers are never used. *)
Theorem getTickers_stops (pre rest : list TickersReply) (ts : list Ticker) :
  Forall fullTickersPage pre ->
  getTickersFromCoinGecko (pre ++ TickersThrows :: rest) = concat (map pageTickers pre) /\
  ((length ts < 100)%nat ->
   getTickersFromCoinGecko (pre ++ TickersPage (Some ts) :: rest) =
   concat (map pageTickers pre) ++ ts).
Proof.
  intros Hf. unfold getTickersFromCoinGecko. rewrite !collectTickers_app_full by exact Hf.
  split; [reflexivity|]. intros Hlt. simpl.
  destruct (Nat.ltb_spec 0 (length ts)) as [_|H0].
  - apply Nat.ltb_lt in Hlt. rewrite Hlt. reflexivity.
  - destruct ts; [rewrite !app_nil_r; reflexivity | simpl in H0; lia].
Qed.

Lemma getTickers_stops_witness :
  getTickersFromCoinGecko [TickersPage (Some (repeat (mkTicker None) 100)); TickersThrows;
                           TickersPage (Some [mkTicker None])]
  = concat (map pageTickers [TickersPage (Some (repeat (mkTicker None) 100))]) /\
  ((length [mkTicker None] < 100)%nat ->
   getTickersFromCoinGecko ([TickersPage (Some (repeat (mkTicker None) 100))] ++
                            TickersPage (Some [mkTicker None]) :: [TickersThrows])
   = concat (map pageTickers [TickersPage (Some (repeat (mkTicker None) 100))]) ++ [mkTicker None]).
Proof.
  apply (getTickers_stops [TickersPage (Some (repeat (mkTicker None) 100))]
           [TickersPage (Some [mkTicker None])] [mkTicker None]).
  constructor; [unfold fullTickersPage; rewrite repeat_length; lia | constructor].
Defined.
